(** * Inventory ledger: a shallow embedding of [cleaned_inventory_system.py]

    The module keeps one global dictionary, [stock_data], from item name to
    quantity, and functions over it: [add_item], [remove_item], [get_qty],
    [check_low_items], [load_data], [save_data], [print_data] and [main].

    The embedding follows the source function by function.  Python values
    are a tagged union, exceptions are an enumeration of the classes the
    module raises, catches or lets through, and every function is a
    computation in a small state-and-exception monad over the [world]: the
    global dictionary together with the files [load_data] and [save_data]
    touch.  The builtins are those of Python 3.11: a conversion between
    [int] and [str] raises [ValueError] beyond 4300 digits, and the decimal
    digits and white space of [int()] are those of Unicode 14.

    The [logging] calls are left out: [logging] reports a failure to format
    a message on the error stream and never raises.  Of the log only the
    report of [print_data] is kept, as the list of messages it emits. *)

From Stdlib Require Import Ascii String ZArith.
From stdpp Require Import gmap strings list fin_maps sorting pretty.

Local Open Scope Z_scope.

Set Warnings "-register-all".

(** ** Python values *)

(** A Python [float]: [FFinite m e] is the number [m * 2^e]. *)
Inductive pyfloat :=
  | FFinite (m e : Z)
  | FInf (negative : bool)
  | FNaN.

(** The values an argument can take and the values of a JSON document.
    A [str] is held as the bytes of its code points in UTF-8, a surrogate
    code point taking the three bytes the scheme gives it; comparing two
    such byte strings is comparing the code points.  A [VDict] lists the
    items of a dictionary with [str] keys in iteration order. *)
Inductive value :=
  | VNone
  | VBool (b : bool)
  | VInt (n : Z)
  | VFloat (x : pyfloat)
  | VStr (s : string)
  | VList (l : list value)
  | VDict (items : list (string * value)).

(** The exception classes of the module. *)
Inductive exn :=
  | TypeError
  | ValueError
  | KeyError
  | OverflowError
  | AttributeError
  | RecursionError
  | JSONDecodeError
  | UnicodeDecodeError
  | OSError
  | FileNotFoundError
  | PermissionError
  | IsADirectoryError.

Global Instance exn_eq_dec : EqDecision exn.
Proof. solve_decision. Defined.

(** [subclass e c]: an exception of class [e] is caught by [except c].
    [JSONDecodeError] and [UnicodeDecodeError] derive from [ValueError];
    [FileNotFoundError], [PermissionError] and [IsADirectoryError] from
    [OSError]; [OverflowError] derives from [ArithmeticError] only and
    [RecursionError] from [RuntimeError] only. *)
Definition subclass (e c : exn) : bool :=
  bool_decide (e = c) ||
  match e, c with
  | JSONDecodeError, ValueError
  | UnicodeDecodeError, ValueError
  | FileNotFoundError, OSError
  | PermissionError, OSError
  | IsADirectoryError, OSError => true
  | _, _ => false
  end.

(** The result of a call: it returns or it raises. *)
Inductive outcome (A : Type) :=
  | Ok (a : A)
  | Raise (e : exn).
Global Arguments Ok {A} a.
Global Arguments Raise {A} e.

(** [isinstance(v, str)]. *)
Definition isinstance_str (v : value) : bool :=
  match v with VStr _ => true | _ => false end.

(** [isinstance(v, int)]; [bool] is a subclass of [int]. *)
Definition isinstance_int (v : value) : bool :=
  match v with VInt _ | VBool _ => true | _ => false end.

(** The number an [int] instance stands for ([True] is 1, [False] is 0). *)
Definition int_val (v : value) : Z :=
  match v with
  | VInt n => n
  | VBool true => 1
  | _ => 0
  end.

(** ** Conversions between [int] and [str] *)

(** The least number whose decimal form has more than 4300 digits. *)
Definition str_digits_bound : Z := Eval vm_compute in 10 ^ 4300.

(** An [int] whose decimal form has at most 4300 digits. *)
Definition fits_str_digits (n : Z) : bool := Z.abs n <? str_digits_bound.
Global Arguments fits_str_digits : simpl never.

(** [str(n)], as [f"{n}"] and ["%d" % n] compute it. *)
Definition str_int (n : Z) : outcome string :=
  if fits_str_digits n then Ok (pretty n) else Raise ValueError.

(** The code points of a [str].  Bytes that are no UTF-8 stand for no
    [str]; they are read as a code point beyond the last one. *)
Fixpoint code_points (s : string) : list N :=
  match s with
  | EmptyString => []
  | String a s1 =>
      let x := N_of_ascii a in
      if (x <? 128)%N then x :: code_points s1
      else
        match s1 with
        | String b s2 =>
            let y := (N_of_ascii b mod 64)%N in
            if (x <? 224)%N then ((x mod 32) * 64 + y)%N :: code_points s2
            else
              match s2 with
              | String c s3 =>
                  let z := (N_of_ascii c mod 64)%N in
                  if (x <? 240)%N then
                    ((x mod 16) * 4096 + y * 64 + z)%N :: code_points s3
                  else
                    match s3 with
                    | String d s4 =>
                        let t := (N_of_ascii d mod 64)%N in
                        ((x mod 8) * 262144 + y * 4096 + z * 64 + t)%N
                          :: code_points s4
                    | EmptyString => [1114112%N]
                    end
              | EmptyString => [1114112%N]
              end
        | EmptyString => [1114112%N]
        end
  end.

(** The code points of the digit zero in each run of ten decimal digits
    beyond ASCII (Unicode 14, category Nd). *)
Definition decimal_zeros : list N :=
  [ 0x660; 0x6f0; 0x7c0; 0x966; 0x9e6; 0xa66; 0xae6; 0xb66; 0xbe6; 0xc66;
    0xce6; 0xd66; 0xde6; 0xe50; 0xed0; 0xf20; 0x1040; 0x1090; 0x17e0;
    0x1810; 0x1946; 0x19d0; 0x1a80; 0x1a90; 0x1b50; 0x1bb0; 0x1c40; 0x1c50;
    0xa620; 0xa8d0; 0xa900; 0xa9d0; 0xa9f0; 0xaa50; 0xabf0; 0xff10;
    0x104a0; 0x10d30; 0x11066; 0x110f0; 0x11136; 0x111d0; 0x112f0; 0x11450;
    0x114d0; 0x11650; 0x116c0; 0x11730; 0x118e0; 0x11950; 0x11c50; 0x11d50;
    0x11da0; 0x16a60; 0x16ac0; 0x16b50; 0x1d7ce; 0x1d7d8; 0x1d7e2; 0x1d7ec;
    0x1d7f6; 0x1e140; 0x1e2f0; 0x1e950; 0x1fbf0 ]%N.

(** The white space beyond ASCII. *)
Definition unicode_space (c : N) : bool :=
  bool_decide (c ∈ [0x85; 0xa0; 0x1680; 0x2028; 0x2029; 0x202f; 0x205f;
                    0x3000]%N) ||
  ((0x2000 <=? c) && (c <=? 0x200a))%N.

(** What [int()] reads a code point as: an ASCII one as itself, white space
    beyond ASCII as a space, a decimal digit beyond ASCII as the ASCII
    digit of its value, and nothing else. *)
Definition to_ascii (c : N) : option N :=
  if (c <? 128)%N then Some c
  else if unicode_space c then Some 32%N
  else
    match find (λ z, (z <=? c) && (c <? z + 10))%N decimal_zeros with
    | Some z => Some (48 + (c - z))%N
    | None => None
    end.

Definition is_digit (c : N) : bool := ((48 <=? c) && (c <=? 57))%N.

Definition digit_val (c : N) : Z := Z.of_N c - 48.

(** The white space [int()] skips: the space and tab to carriage return
    (9 to 13). *)
Definition is_space (c : N) : bool :=
  ((c =? 32) || ((9 <=? c) && (c <=? 13)))%N.

Fixpoint lstrip (l : list N) : list N :=
  match l with
  | c :: l' => if is_space c then lstrip l' else l
  | [] => []
  end.

Definition strip (l : list N) : list N := rev (lstrip (rev (lstrip l))).

(** Digits with single underscores between them; [acc] is the value read so
    far and [after_digit] tells whether the last character was a digit. *)
Fixpoint digits (l : list N) (acc : Z) (after_digit : bool) : option Z :=
  match l with
  | [] => if after_digit then Some acc else None
  | c :: l' =>
      if is_digit c then digits l' (10 * acc + digit_val c) true
      else if (c =? 95)%N && after_digit then digits l' acc false
      else None
  end.

(** [int(s)] for a [str]: surrounding white space, an optional sign, a
    decimal literal of at most 4300 digits, leading zeros counted. *)
Definition int_of_str (s : string) : outcome Z :=
  match mapM to_ascii (code_points s) with
  | None => Raise ValueError
  | Some l =>
      let '(sign, body) :=
        match strip l with
        | 45%N :: body => (-1, body)
        | 43%N :: body => (1, body)
        | body => (1, body)
        end in
      match digits body 0 false with
      | Some n =>
          if (length (filter (λ c, is_digit c = true) body) <=? 4300)%nat
          then Ok (sign * n) else Raise ValueError
      | None => Raise ValueError
      end
  end.

(** [int(x)] for a [float]: truncation towards zero; an infinity raises
    [OverflowError] and a NaN raises [ValueError]. *)
Definition int_of_float (x : pyfloat) : outcome Z :=
  match x with
  | FFinite m e => Ok (if 0 <=? e then m * 2 ^ e else m ÷ 2 ^ (- e))
  | FInf _ => Raise OverflowError
  | FNaN => Raise ValueError
  end.

(** [int(v)]. *)
Definition py_int (v : value) : outcome Z :=
  match v with
  | VInt n => Ok n
  | VBool b => Ok (if b then 1 else 0)
  | VFloat x => int_of_float x
  | VStr s => int_of_str s
  | VNone | VList _ | VDict _ => Raise TypeError
  end.

(** ** JSON documents and files *)

(** What [json.load] makes of a string of a document: an escaped high
    surrogate directly followed by an escaped low surrogate is read as the
    one code point the pair encodes; everything else is read as it is.  On
    the bytes: [ED A0-AF xx ED B0-BF yy] becomes the four bytes of that
    code point. *)
Fixpoint join_surrogates (s : string) : string :=
  match s with
  | EmptyString => EmptyString
  | String a1 t1 =>
      match t1 with
      | String a2 (String a3 (String a4 (String a5 (String a6 t6)))) =>
          let b i := N_of_ascii i in
          if ((b a1 =? 237) && (160 <=? b a2) && (b a2 <=? 175) &&
              (128 <=? b a3) && (b a3 <=? 191) &&
              (b a4 =? 237) && (176 <=? b a5) && (b a5 <=? 191) &&
              (128 <=? b a6) && (b a6 <=? 191))%N
          then
            let high := ((b a2 - 160) * 64 + (b a3 - 128))%N in
            let low := ((b a5 - 176) * 64 + (b a6 - 128))%N in
            let c := (65536 + high * 1024 + low)%N in
            String (ascii_of_N (240 + c / 262144))
              (String (ascii_of_N (128 + (c / 4096) mod 64))
                 (String (ascii_of_N (128 + (c / 64) mod 64))
                    (String (ascii_of_N (128 + c mod 64))
                       (join_surrogates t6))))
          else String a1 (join_surrogates t1)
      | _ => String a1 (join_surrogates t1)
      end
  end.

(** [d[k] = v] on the items of a dictionary: a key already there keeps its
    place and takes the new value, a new key goes last. *)
Fixpoint dict_set (k : string) (v : value) (items : list (string * value))
    : list (string * value) :=
  match items with
  | [] => [(k, v)]
  | (k', v') :: rest =>
      if decide (k = k') then (k, v) :: rest
      else (k', v') :: dict_set k v rest
  end.

(** The dictionary built from the members of an object, in order. *)
Definition py_dict (members : list (string * value))
    : list (string * value) :=
  foldl (λ items m, dict_set m.1 m.2 items) [] members.

(** The value [json.load] returns for a document. *)
Fixpoint json_decode (v : value) : value :=
  match v with
  | VStr s => VStr (join_surrogates s)
  | VList l => VList (map json_decode l)
  | VDict members =>
      VDict (py_dict (map (λ m, match m with
                                | (k, x) => (join_surrogates k, json_decode x)
                                end) members))
  | _ => v
  end.

(** Every integer literal of the document has at most 4300 digits;
    [json.load] raises [ValueError] on a longer one. *)
Fixpoint json_fits (v : value) : bool :=
  match v with
  | VInt n => fits_str_digits n
  | VList l => forallb json_fits l
  | VDict members =>
      forallb (λ m, match m with (_, x) => json_fits x end) members
  | _ => true
  end.

(** What a file holds, as far as [json.load] tells. *)
Inductive content :=
  | Undecodable     (* bytes that are not UTF-8: reading raises UnicodeDecodeError *)
  | Garbage         (* text that is not JSON: json.load raises JSONDecodeError *)
  | Nested          (* JSON nested too deep: json.load raises RecursionError *)
  | Doc (v : value) (* JSON text, [v] its document: objects list their
                       members as written, strings are those the text
                       denotes before surrogate pairs are joined *).

(** What [open] finds at a path. *)
Inductive node :=
  | File (c : content)     (* a regular file, readable and writable *)
  | ReadOnly (c : content) (* readable; open(_, "w") raises PermissionError *)
  | Full (c : content)     (* readable; open(_, "w") truncates it and the
                              write raises OSError: no space left *)
  | Blocked (e : exn)      (* open raises [e] in either mode *).

(** ** The world and the monad *)

Record world := World {
  stock_data : gmap string Z;
  disk : gmap string node
}.

Definition M (A : Type) : Type := world → outcome A * world.

Definition ret {A} (a : A) : M A := λ w, (Ok a, w).

Definition raise {A} (e : exn) : M A := λ w, (Raise e, w).

Definition bind {A B} (m : M A) (k : A → M B) : M B :=
  λ w, match m w with
       | (Ok a, w') => k a w'
       | (Raise e, w') => (Raise e, w')
       end.

Global Instance M_ret : MRet M := @ret.
Global Instance M_bind : MBind M := λ A B k m, bind m k.

(** A pure computation that may raise. *)
Definition lift {A} (o : outcome A) : M A := λ w, (o, w).

(** Read the global. *)
Definition get_stock : M (gmap string Z) := λ w, (Ok (stock_data w), w).

(** Assign the global. *)
Definition set_stock (s : gmap string Z) : M unit :=
  λ w, (Ok tt, World s (disk w)).

(** [try: body except cs1: h1 except cs2: h2 ...]: the first clause one of
    whose classes catches the exception handles it. *)
Definition try_except {A} (body : M A)
    (clauses : list (list exn * (exn → M A))) : M A :=
  λ w, match body w with
       | (Raise e, w') =>
           match find (λ cl, existsb (subclass e) cl.1) clauses with
           | Some cl => cl.2 e w'
           | None => (Raise e, w')
           end
       | r => r
       end.

(** ** The functions of the module *)

(** [f"{qty}"] for an [int] instance: a [bool] prints as its name. *)
Definition format_qty (qty : value) : outcome string :=
  match qty with
  | VBool b => Ok (if b then "True" else "False")
  | _ => str_int (int_val qty)
  end.

(** [logs.append(entry)]: among the values only a list has [append]. *)
Definition list_append (logs : value) (entry : string) : outcome value :=
  match logs with
  | VList l => Ok (VList (l ++ [VStr entry]))
  | _ => Raise AttributeError
  end.

(** [if logs is None: logs = []]. *)
Definition logs_or_new (logs : value) : value :=
  match logs with VNone => VList [] | _ => logs end.

(** [add_item(item, qty, logs)]; [now] is the reading of the clock, as
    [datetime.now().isoformat()] renders it.  The function returns [None];
    the computation hands back the list [logs] names when it ends, the
    entry appended in place (for [logs = None] the list made on entry). *)
Definition add_item (item qty logs : value) (now : string) : M value :=
  let logs := logs_or_new logs in
  match item with
  | VStr name =>
      if negb (isinstance_int qty) then raise TypeError
      else if int_val qty <=? 0 then raise ValueError
      else
        stock ← get_stock;
        let previous := default 0 (stock !! name) in
        set_stock (<[name := previous + int_val qty]> stock);;
        text ← lift (format_qty qty);
        let entry := now +:+ ": Added " +:+ text +:+ " of " +:+ name in
        lift (list_append logs entry)
  | _ => raise TypeError
  end.

Definition remove_item (item qty : value) : M unit :=
  match item with
  | VStr name =>
      if negb (isinstance_int qty) then raise TypeError
      else if int_val qty <=? 0 then raise ValueError
      else
        stock ← get_stock;
        match stock !! name with
        | None => raise KeyError
        | Some current =>
            if int_val qty >=? current then set_stock (delete name stock)
            else set_stock (<[name := current - int_val qty]> stock)
        end
  | _ => raise TypeError
  end.

Definition get_qty (item : value) : M Z :=
  match item with
  | VStr name =>
      stock ← get_stock;
      ret (default 0 (stock !! name))
  | _ => raise TypeError
  end.

(** The list comes in the order the map enumerates its items; the order in
    which the dictionary was filled is not kept. *)
Definition check_low_items (threshold : value) : M (list string) :=
  if negb (isinstance_int threshold) then raise TypeError
  else if int_val threshold <? 0 then raise ValueError
  else
    stock ← get_stock;
    ret (filter (λ p : string * Z, p.2 < int_val threshold)
                (map_to_list stock)).*1.

(** [open(file, "r", encoding="utf-8")] and reading the whole file. *)
Definition open_read (file : string) : M content :=
  λ w, match disk w !! file with
       | None => (Raise FileNotFoundError, w)
       | Some (File c) | Some (ReadOnly c) | Some (Full c) => (Ok c, w)
       | Some (Blocked e) => (Raise e, w)
       end.

(** [json.load(f)]. *)
Definition json_load (c : content) : M value :=
  match c with
  | Undecodable => raise UnicodeDecodeError
  | Garbage => raise JSONDecodeError
  | Nested => raise RecursionError
  | Doc v => if json_fits v then ret (json_decode v) else raise ValueError
  end.

(** [{str(k): int(v) for k, v in data.items()}]: the items are visited in
    order, the first [int(v)] that raises ends the comprehension, and a key
    met again takes the later value.  The keys of a loaded object are [str]
    already, so [str(k)] is [k]. *)
Fixpoint dict_comp (items : list (string * value)) (acc : gmap string Z)
    : outcome (gmap string Z) :=
  match items with
  | [] => Ok acc
  | (k, v) :: rest =>
      match py_int v with
      | Ok n => dict_comp rest (<[k := n]> acc)
      | Raise e => Raise e
      end
  end.

Definition load_data (file : string) : M unit :=
  try_except
    (f ← open_read file;
     data ← json_load f;
     match data with
     | VDict items =>
         new ← lift (dict_comp items ∅);
         set_stock new
     | _ => raise ValueError
     end)
    [ ([FileNotFoundError], λ _, set_stock ∅);
      ([JSONDecodeError; ValueError; TypeError], λ _, set_stock ∅) ].

Definition key_le (p q : string * Z) : Prop := String.le p.1 q.1.

Global Instance key_le_dec : RelDecision key_le.
Proof. intros p q. unfold key_le. apply _. Defined.

(** [json.dump(stock_data, f, indent=2, sort_keys=True)]: the document
    written, its items sorted by key ([str] comparison); a quantity of more
    than 4300 digits raises [ValueError]. *)
Definition json_dump (stock : gmap string Z) : outcome value :=
  let items := merge_sort key_le (map_to_list stock) in
  if forallb (λ p : string * Z, fits_str_digits p.2) items
  then Ok (VDict (prod_map id VInt <$> items))
  else Raise ValueError.

(** [with open(file, "w", encoding="utf-8") as f: json.dump(..., f)]:
    opening truncates the file, and a dump that raises leaves it cut
    short. *)
Definition open_write (file : string) (doc : outcome value) : M unit :=
  λ w, match disk w !! file with
       | None | Some (File _) =>
           match doc with
           | Ok v =>
               (Ok tt, World (stock_data w) (<[file := File (Doc v)]> (disk w)))
           | Raise e =>
               (Raise e,
                World (stock_data w) (<[file := File Garbage]> (disk w)))
           end
       | Some (ReadOnly _) => (Raise PermissionError, w)
       | Some (Full _) =>
           (Raise OSError,
            World (stock_data w) (<[file := Full Garbage]> (disk w)))
       | Some (Blocked e) => (Raise e, w)
       end.

Definition save_data (file : string) : M unit :=
  try_except
    (stock ← get_stock;
     open_write file (json_dump stock))
    [ ([OSError], λ exc, raise exc) ].

(** What reading a node yields, when it can be read. *)
Definition node_content (n : node) : option content :=
  match n with
  | File c | ReadOnly c | Full c => Some c
  | Blocked _ => None
  end.

(** The exceptions the two [except] clauses of [load_data] catch. *)
Definition load_catches (e : exn) : bool :=
  existsb (subclass e) [FileNotFoundError] ||
  existsb (subclass e) [JSONDecodeError; ValueError; TypeError].

(** ** Sequences of calls *)

Inductive mutation :=
  | Add (item qty logs : value) (now : string)
  | Remove (item qty : value).

Inductive call :=
  | Mutate (m : mutation)
  | Load (file : string)
  | Save (file : string).

Definition do_mutation (m : mutation) : M unit :=
  match m with
  | Add item qty logs now => add_item item qty logs now;; mret tt
  | Remove item qty => remove_item item qty
  end.

Definition do_call (c : call) : M unit :=
  match c with
  | Mutate m => do_mutation m
  | Load file => load_data file
  | Save file => save_data file
  end.

(** The outcome and the world after each step of a sequence.  A step that
    raises is caught by the caller, as [main] does, and the next step runs
    in the world the failed one left. *)
Fixpoint trace {C} (step : C → M unit) (cs : list C) (w : world)
    : list (outcome unit * world) :=
  match cs with
  | [] => []
  | c :: cs' => let r := step c w in r :: trace step cs' r.2
  end.

(** Invariant I1: every stored quantity is above 0. *)
Definition stock_positive (stock : gmap string Z) : Prop :=
  ∀ name q, stock !! name = Some q → 0 < q.

(** Absence is quantity 0: [get_qty] answers 0 exactly for the items that
    are not in the dictionary. *)
Definition absent_iff_zero (w : world) : Prop :=
  ∀ name, stock_data w !! name = None ↔ get_qty (VStr name) w = (Ok 0, w).

(** ** What the invariant asks of files *)

(** The values of a JSON object that [int()] accepts come out above 0. *)
Definition items_positive (items : list (string * value)) : Prop :=
  ∀ k v n, (k, v) ∈ items → py_int v = Ok n → 0 < n.

(** Every file that [json.load] reads as an object holds such values. *)
Definition disk_positive (files : gmap string node) : Prop :=
  ∀ file n doc items,
    files !! file = Some n → node_content n = Some (Doc doc) →
    json_fits doc = true → json_decode doc = VDict items →
    items_positive items.

Definition world_positive (w : world) : Prop :=
  stock_positive (stock_data w) ∧ disk_positive (disk w).

(** ** The report and the demo driver *)

(** The message [logging.info("  %s -> %d", item, qty)] emits. *)
Definition report_line (p : string * Z) : string :=
  "  " +:+ p.1 +:+ " -> " +:+ pretty p.2.

(** [print_data]: the messages [logging.info] emits for it, in order.
    [sorted(stock_data.items())] orders the items by key, the keys of a
    dictionary being distinct.  For a quantity of more than 4300 digits
    ["%d"] cannot be formatted: [logging] reports the failure on the error
    stream and emits no message. *)
Definition print_data : M (list string) :=
  stock ← get_stock;
  if bool_decide (stock = ∅) then
    mret ["Inventory Report:"; "  (no items in inventory)"]
  else
    mret ("Inventory Report:" ::
          (report_line <$>
             filter (λ p : string * Z, fits_str_digits p.2 = true)
                    (merge_sort key_le (map_to_list stock)))).

(** [try: body finally: final]: [final] runs whatever [body] did; what
    [final] raises replaces the outcome of [body]. *)
Definition try_finally {A} (body : M A) (final : M unit) : M A :=
  λ w, match body w with
       | (r, w') =>
           match final w' with
           | (Ok _, w'') => (r, w'')
           | (Raise e, w'') => (Raise e, w'')
           end
       end.

(** [main], with the default arguments of [load_data], [save_data]
    ("inventory.json"), [check_low_items] (5) and [add_item] (no [logs])
    written out; [now] is the clock when "apple" is added. *)
Definition main (now : string) : M unit :=
  load_data "inventory.json";;
  try_finally
    (add_item (VStr "apple") (VInt 10) VNone now;;
     try_except (add_item (VStr "banana") (VInt (-2)) VNone now;; mret tt)
       [ ([ValueError], λ _, mret tt) ];;
     try_except (add_item (VInt 123) (VInt 10) VNone now;; mret tt)
       [ ([TypeError], λ _, mret tt) ];;
     remove_item (VStr "apple") (VInt 3);;
     try_except (remove_item (VStr "orange") (VInt 1))
       [ ([KeyError], λ _, mret tt) ];;
     _ ← get_qty (VStr "apple");
     _ ← check_low_items (VInt 5);
     mret tt)
    (save_data "inventory.json";;
     _ ← print_data;
     mret tt).

(** ** Running the monad *)

Ltac unfold_M :=
  unfold mbind, M_bind, bind, mret, M_ret, ret, raise, lift,
         get_stock, set_stock in *; simpl in *.

(** The two guards shared by [add_item] and [remove_item]. *)
Lemma int_guard_pass (qty : value) :
  isinstance_int qty = true → 0 < int_val qty →
  negb (isinstance_int qty) = false ∧ (int_val qty <=? 0) = false.
Proof. intros -> Hpos. split; [done | lia]. Qed.

Lemma bind_ok {A B} (m : M A) (k : A → M B) (w w' : world) (a : A) :
  m w = (Ok a, w') → (m ≫= k) w = k a w'.
Proof. unfold mbind, M_bind, bind. by intros ->. Qed.

(** Past its checks, [add_item] stores the sum, then formats the entry and
    appends it; either of the last two may raise. *)
Lemma add_item_run (name : string) (qty logs : value) (now : string)
    (w : world) :
  isinstance_int qty = true → 0 < int_val qty →
  add_item (VStr name) qty logs now w =
    (match format_qty qty with
     | Ok text =>
         list_append (logs_or_new logs)
           (now +:+ ": Added " +:+ text +:+ " of " +:+ name)
     | Raise e => Raise e
     end,
     World (<[name := default 0 (stock_data w !! name) + int_val qty]>
              (stock_data w))
           (disk w)).
Proof.
  intros Hint Hpos. unfold add_item.
  destruct (int_guard_pass qty Hint Hpos) as [-> ->]. unfold_M.
  by destruct (format_qty qty).
Qed.

(** The world [add_item] leaves when its checks pass, whether it returns or
    raises afterwards. *)
Lemma add_item_world (name : string) (qty logs : value) (now : string)
    (w : world) :
  isinstance_int qty = true → 0 < int_val qty →
  (add_item (VStr name) qty logs now w).2 =
    World (<[name := default 0 (stock_data w !! name) + int_val qty]>
             (stock_data w))
          (disk w).
Proof. intros Hint Hpos. by rewrite add_item_run. Qed.


(** The arguments of a call to [add_item] that got past its checks. *)
Lemma add_item_checked (item qty logs : value) (now : string) (w : world) :
  (add_item item qty logs now w).2 ≠ w ∨
  (∃ r, (add_item item qty logs now w).1 = Ok r) →
  ∃ name, item = VStr name ∧ isinstance_int qty = true ∧ 0 < int_val qty.
Proof.
  unfold add_item. destruct item; try (intros [? | [? ?]]; done).
  destruct (isinstance_int qty) eqn:Hint; simpl;
    [|intros [? | [? ?]]; done].
  destruct (int_val qty <=? 0) eqn:Hle; [intros [? | [? ?]]; done|].
  intros _. eexists. split; [done|]. split; [done | lia].
Qed.

(** What a call to [add_item] does to the world is decided by its
    arguments: nothing when a check fails, and otherwise the sum is stored,
    whether the call then returns or raises. *)
Lemma add_item_effect (item qty logs : value) (now : string) :
  (∀ w, (add_item item qty logs now w).2 = w) ∨
  ∃ name, item = VStr name ∧ isinstance_int qty = true ∧ 0 < int_val qty ∧
    ∀ w, (add_item item qty logs now w).2 =
           World (<[name := default 0 (stock_data w !! name) + int_val qty]>
                    (stock_data w)) (disk w).
Proof.
  destruct item; try by left.
  destruct (isinstance_int qty) eqn:Hint.
  2: { left. intros w. unfold add_item. by rewrite Hint. }
  destruct (decide (int_val qty ≤ 0)) as [Hle|Hpos].
  { left. intros w. unfold add_item. rewrite Hint. simpl.
    by replace (int_val qty <=? 0) with true by lia. }
  right. eexists. split; [done|]. split; [done|]. split; [lia|].
  intros w. apply add_item_world; [done | lia].
Qed.

Lemma add_item_cases (item qty logs : value) (now : string) (w : world) :
  (add_item item qty logs now w).2 = w ∨
  ∃ name, item = VStr name ∧ isinstance_int qty = true ∧ 0 < int_val qty ∧
    (add_item item qty logs now w).2 =
      World (<[name := default 0 (stock_data w !! name) + int_val qty]>
               (stock_data w)) (disk w).
Proof.
  destruct (add_item_effect item qty logs now)
    as [Hsame | (name & -> & Hint & Hpos & Hstore)]; [by left | right].
  by exists name.
Qed.

Lemma remove_item_run (name : string) (qty : value) (w : world) :
  isinstance_int qty = true → 0 < int_val qty →
  remove_item (VStr name) qty w =
    match stock_data w !! name with
    | None => (Raise KeyError, w)
    | Some current =>
        (Ok tt,
         World (if int_val qty >=? current then delete name (stock_data w)
                else <[name := current - int_val qty]> (stock_data w))
               (disk w))
    end.
Proof.
  intros Hint Hpos. unfold remove_item.
  destruct (int_guard_pass qty Hint Hpos) as [-> ->]. unfold_M.
  destruct (stock_data w !! name) as [current|]; [|done].
  by destruct (int_val qty >=? current).
Qed.

Lemma get_qty_run (name : string) (w : world) :
  get_qty (VStr name) w = (Ok (default 0 (stock_data w !! name)), w).
Proof. reflexivity. Qed.


(** ** Claims on [add_item] and [remove_item] *)

Section mutation.
Implicit Types (name now : string) (item qty logs : value) (w : world).

(** C5. [remove_item] on a [str] item and an [int] quantity above 0: an
    item that is not in the dictionary raises [KeyError] and changes
    nothing; otherwise, with [current] the stored quantity, the key is
    deleted when [qty >= current] (taking more than is on hand is not an
    error) and the stored quantity becomes [current - qty] when
    [qty < current]. *)
Theorem remove_item_spec name qty w :
  isinstance_int qty = true → 0 < int_val qty →
  (stock_data w !! name = None →
     remove_item (VStr name) qty w = (Raise KeyError, w)) ∧
  (∀ current, stock_data w !! name = Some current →
     int_val qty >= current →
     remove_item (VStr name) qty w =
       (Ok tt, World (delete name (stock_data w)) (disk w))) ∧
  (∀ current, stock_data w !! name = Some current →
     int_val qty < current →
     remove_item (VStr name) qty w =
       (Ok tt, World (<[name := current - int_val qty]> (stock_data w))
                     (disk w))).
Proof.
  intros Hint Hpos. rewrite remove_item_run by done.
  split; [by intros ->|]. split; intros current -> Hcmp.
  - by replace (int_val qty >=? current) with true by lia.
  - by replace (int_val qty >=? current) with false by lia.
Qed.

Lemma remove_item_spec_witness :
  remove_item (VStr "x") (VInt 1) (World ∅ ∅) = (Raise KeyError, World ∅ ∅) ∧
  remove_item (VStr "x") (VInt 100) (World {["x" := 5]} ∅) =
    (Ok tt, World (delete "x" {["x" := 5]}) ∅) ∧
  remove_item (VStr "x") (VInt 2) (World {["x" := 5]} ∅) =
    (Ok tt, World (<["x" := 5 - 2]> {["x" := 5]}) ∅).
Proof.
  split; [|split].
  - destruct (remove_item_spec "x" (VInt 1) (World ∅ ∅) eq_refl eq_refl)
      as (Hmissing & _ & _).
    apply Hmissing. reflexivity.
  - destruct (remove_item_spec "x" (VInt 100) (World {["x" := 5]} ∅)
                eq_refl eq_refl) as (_ & Hall & _).
    apply (Hall 5); [reflexivity | simpl; lia].
  - destruct (remove_item_spec "x" (VInt 2) (World {["x" := 5]} ∅)
                eq_refl eq_refl) as (_ & _ & Hpart).
    apply (Hpart 5); [reflexivity | simpl; lia].
Defined.

(** C6, as the code has it.  An [add_item] that returns has stored the
    previous quantity (0 for an item that is not in the dictionary) plus
    [qty].  On a ledger without [x], for [a, b > 0] of at most 4300 digits
    and each [logs] [None] or a list, [add_item(x, a)] then
    [add_item(x, b)] return and [get_qty(x)] is [a + b]; the quantity
    stored after the two calls is [a + b] in any case. *)
Theorem add_item_accumulates name item qty logs now (a b : Z)
    (logs1 logs2 : value) (now1 now2 : string) w :
  0 < a → 0 < b →
  (∀ r w', add_item item qty logs now w = (Ok r, w') →
     ∃ x, item = VStr x ∧
          w' = World (<[x := default 0 (stock_data w !! x) + int_val qty]>
                        (stock_data w)) (disk w)) ∧
  (stock_data w !! name = None →
     let w1 := (add_item (VStr name) (VInt a) logs1 now1 w).2 in
     let w2 := (add_item (VStr name) (VInt b) logs2 now2 w1).2 in
     get_qty (VStr name) w2 = (Ok (a + b), w2) ∧
     w2 = World (<[name := a + b]> (stock_data w)) (disk w)) ∧
  (stock_data w !! name = None →
   fits_str_digits a = true → fits_str_digits b = true →
   (∃ l, logs_or_new logs1 = VList l) → (∃ l, logs_or_new logs2 = VList l) →
     (add_item (VStr name) (VInt a) logs1 now1;;
      add_item (VStr name) (VInt b) logs2 now2;;
      get_qty (VStr name)) w
     = (Ok (a + b), World (<[name := a + b]> (stock_data w)) (disk w))).
Proof.
  intros Ha Hb.
  assert (∀ u, stock_data u !! name = None →
            (add_item (VStr name) (VInt b) logs2 now2
               (add_item (VStr name) (VInt a) logs1 now1 u).2).2 =
            World (<[name := a + b]> (stock_data u)) (disk u)) as Htwo.
  { intros u Hfresh. rewrite !add_item_world by done. simpl.
    rewrite Hfresh, lookup_insert_eq, insert_insert_eq. simpl.
    by rewrite Z.add_0_l. }
  split; [|split].
  - intros r w' Hadd.
    destruct (add_item_checked item qty logs now w) as (x & -> & Hint & Hpos).
    { right. exists r. by rewrite Hadd. }
    exists x. split; [done|].
    rewrite <-(add_item_world x qty logs now w Hint Hpos). by rewrite Hadd.
  - intros Hfresh. cbv zeta. rewrite (Htwo w Hfresh). split; [|done].
    rewrite get_qty_run. simpl. by rewrite lookup_insert_eq.
  - intros Hfresh Hfa Hfb [l1 Hl1] [l2 Hl2].
    assert (∀ (q : Z) ls nw l u, 0 < q → fits_str_digits q = true →
              logs_or_new ls = VList l →
              ∃ r, add_item (VStr name) (VInt q) ls nw u =
                     (Ok r, (add_item (VStr name) (VInt q) ls nw u).2))
      as Hreturns.
    { intros q ls nw l u Hq Hfq Hl. rewrite add_item_run by done.
      unfold format_qty, str_int. cbn [int_val]. rewrite Hfq, Hl.
      by eexists. }
    destruct (Hreturns a logs1 now1 l1 w Ha Hfa Hl1) as [r1 Hr1].
    destruct (Hreturns b logs2 now2 l2
                (add_item (VStr name) (VInt a) logs1 now1 w).2 Hb Hfb Hl2)
      as [r2 Hr2].
    rewrite (bind_ok _ _ _ _ _ Hr1), (bind_ok _ _ _ _ _ Hr2).
    rewrite (Htwo w Hfresh), get_qty_run. simpl.
    by rewrite lookup_insert_eq.
Qed.

Lemma add_item_accumulates_witness :
  (let w1 := (add_item (VStr "pear") (VInt 3) VNone "09:00"
                (World {["apple" := 7]} ∅)).2 in
   let w2 := (add_item (VStr "pear") (VInt 4) (VInt 0) "09:01" w1).2 in
   get_qty (VStr "pear") w2 = (Ok (3 + 4), w2) ∧
   w2 = World (<["pear" := 3 + 4]> {["apple" := 7]}) ∅) ∧
  (add_item (VStr "pear") (VInt 3) VNone "09:00";;
   add_item (VStr "pear") (VInt 4) (VList []) "09:01";;
   get_qty (VStr "pear")) (World {["apple" := 7]} ∅)
  = (Ok (3 + 4), World (<["pear" := 3 + 4]> {["apple" := 7]}) ∅).
Proof.
  split.
  - destruct (add_item_accumulates "pear" VNone VNone VNone "" 3 4
                VNone (VInt 0) "09:00" "09:01" (World {["apple" := 7]} ∅)
                eq_refl eq_refl) as (_ & Hafter & _).
    apply Hafter. reflexivity.
  - destruct (add_item_accumulates "pear" VNone VNone VNone "" 3 4
                VNone (VList []) "09:00" "09:01" (World {["apple" := 7]} ∅)
                eq_refl eq_refl) as (_ & _ & Hseq).
    apply Hseq; [reflexivity | reflexivity | reflexivity | by eexists
                | by eexists].
Defined.

(** C6 as stated fails: for [a] of 4301 digits the first [add_item] stores
    the quantity and then raises [ValueError] when it formats the log
    entry, so the calls do not run to [get_qty]. *)
Lemma add_item_sequence_raises :
  (add_item (VStr "x") (VInt str_digits_bound) VNone "09:00";;
   add_item (VStr "x") (VInt 1) VNone "09:01";;
   get_qty (VStr "x")) (World ∅ ∅) =
  (Raise ValueError, World {["x" := str_digits_bound]} ∅).
Proof. vm_compute. reflexivity. Qed.
End mutation.

Section validation.
Implicit Types (name now : string) (item qty logs : value) (w : world).

(** C8. [add_item] raises [TypeError] when [item] is not a [str] or [qty]
    is not an [int], and [ValueError] when the types are right and
    [qty <= 0]; [remove_item] of an item that is not in the dictionary
    raises [KeyError].  So [add_item(42, 1)] raises [TypeError],
    [add_item("x", 0)] and [add_item("x", -1)] raise [ValueError], and
    [remove_item("ghost", 1)] on the empty ledger raises [KeyError]. *)
Theorem validation_errors item qty logs now name w :
  (isinstance_str item = false ∨ isinstance_int qty = false →
     add_item item qty logs now w = (Raise TypeError, w)) ∧
  (isinstance_int qty = true → int_val qty ≤ 0 →
     add_item (VStr name) qty logs now w = (Raise ValueError, w)) ∧
  (isinstance_int qty = true → 0 < int_val qty →
   stock_data w !! name = None →
     remove_item (VStr name) qty w = (Raise KeyError, w)) ∧
  add_item (VInt 42) (VInt 1) logs now w = (Raise TypeError, w) ∧
  add_item (VStr "x") (VInt 0) logs now w = (Raise ValueError, w) ∧
  add_item (VStr "x") (VInt (-1)) logs now w = (Raise ValueError, w) ∧
  remove_item (VStr "ghost") (VInt 1) (World ∅ (disk w)) =
    (Raise KeyError, World ∅ (disk w)).
Proof.
  repeat split; try reflexivity.
  - intros [Hitem | Hqty]; unfold add_item.
    + by destruct item.
    + destruct item; try done. by rewrite Hqty.
  - intros Hint Hle. unfold add_item. rewrite Hint. simpl.
    by replace (int_val qty <=? 0) with true by lia.
  - intros Hint Hpos Hmissing.
    rewrite remove_item_run by done. by rewrite Hmissing.
Qed.

Lemma validation_errors_witness :
  add_item (VFloat FNaN) (VStr "1") VNone "09:00" (World ∅ ∅) =
    (Raise TypeError, World ∅ ∅) ∧
  add_item (VStr "x") (VBool false) VNone "09:00" (World ∅ ∅) =
    (Raise ValueError, World ∅ ∅) ∧
  remove_item (VStr "x") (VInt 2) (World {["y" := 1]} ∅) =
    (Raise KeyError, World {["y" := 1]} ∅).
Proof.
  split; [|split].
  - destruct (validation_errors (VFloat FNaN) (VStr "1") VNone "09:00" "x"
                (World ∅ ∅)) as (Htype & _).
    apply Htype. left. reflexivity.
  - destruct (validation_errors VNone (VBool false) VNone "09:00" "x"
                (World ∅ ∅)) as (_ & Hvalue & _).
    apply Hvalue; [reflexivity | simpl; lia].
  - destruct (validation_errors VNone (VInt 2) VNone "" "x"
                (World {["y" := 1]} ∅)) as (_ & _ & Hkey & _).
    apply Hkey; [reflexivity | simpl; lia | reflexivity].
Defined.



End validation.

Lemma stock_positive_empty : stock_positive ∅.
Proof. intros name q. by rewrite lookup_empty. Qed.

Lemma stock_positive_absent (w : world) :
  stock_positive (stock_data w) → absent_iff_zero w.
Proof.
  intros Hpos name. rewrite get_qty_run. split; [by intros ->|].
  destruct (stock_data w !! name) as [q|] eqn:Hq; [|done].
  simpl. intros [= ->]. by apply Hpos in Hq.
Qed.

Lemma add_item_positive (item qty logs : value) (now : string) (w : world) :
  stock_positive (stock_data w) →
  stock_positive (stock_data (add_item item qty logs now w).2).
Proof.
  intros Hpos.
  destruct (add_item_cases item qty logs now w)
    as [-> | (name' & -> & Hint & Hq & ->)]; [done|]. simpl.
  intros name q. rewrite lookup_insert. case_decide as Hname.
  - intros [= <-]. destruct (stock_data w !! name') as [p|] eqn:Hp; simpl.
    + apply Hpos in Hp. lia.
    + lia.
  - apply Hpos.
Qed.

Lemma remove_item_positive (item qty : value) (w : world) :
  stock_positive (stock_data w) →
  stock_positive (stock_data (remove_item item qty w).2).
Proof.
  intros Hpos. unfold remove_item.
  destruct item; try done.
  destruct (isinstance_int qty) eqn:Hint; [|done]. simpl.
  destruct (int_val qty <=? 0) eqn:Hle; [done|]. unfold_M.
  destruct (stock_data w !! s) as [current|] eqn:Hcur; [|done].
  destruct (int_val qty >=? current) eqn:Hge; simpl; intros name q.
  - rewrite lookup_delete. case_decide; [done | apply Hpos].
  - rewrite lookup_insert. case_decide; [|apply Hpos].
    intros [= <-]. lia.
Qed.

(** [do_mutation] leaves the world its call leaves. *)
Lemma do_mutation_world (m : mutation) (w : world) :
  (do_mutation m w).2 =
    match m with
    | Add item qty logs now => (add_item item qty logs now w).2
    | Remove item qty => (remove_item item qty w).2
    end.
Proof.
  destruct m as [item qty logs now|item qty]; [|done].
  simpl. unfold mbind, M_bind, bind.
  by destruct (add_item item qty logs now w) as [[r|e] w'].
Qed.

Lemma do_mutation_positive (m : mutation) (w : world) :
  stock_positive (stock_data w) →
  stock_positive (stock_data (do_mutation m w).2).
Proof.
  rewrite do_mutation_world.
  destruct m; [apply add_item_positive | apply remove_item_positive].
Qed.

(** A property kept by every step holds along the whole trace. *)
Lemma trace_invariant {C} (step : C → M unit) (P : world → Prop) :
  (∀ c w, P w → P (step c w).2) →
  ∀ cs w, P w → Forall (λ r, P r.2) (trace step cs w).
Proof.
  intros Hstep cs. induction cs as [|c cs IH]; intros w Hw; simpl.
  - constructor.
  - constructor; [by apply Hstep | by apply IH, Hstep].
Qed.

(** C2. Along every sequence of [add_item] and [remove_item] calls started
    on the empty ledger, after each call every value of the dictionary is
    above 0 and [get_qty] returns 0 for every item that is not in it. *)
Theorem mutations_keep_positive (ms : list mutation) (files : gmap string node) :
  Forall (λ r : outcome unit * world,
            stock_positive (stock_data r.2) ∧
            ∀ name, stock_data r.2 !! name = None →
                    get_qty (VStr name) r.2 = (Ok 0, r.2))
         (trace do_mutation ms (World ∅ files)).
Proof.
  eapply Forall_impl.
  - apply (trace_invariant do_mutation (λ w, stock_positive (stock_data w))).
    + intros m w. apply do_mutation_positive.
    + apply stock_positive_empty.
  - intros r Hpos. split; [done|].
    intros name Hname. by apply stock_positive_absent.
Qed.

(** ** Dictionaries built by [json.load] *)

Section py_dict.
Implicit Types (k : string) (v : value) (items l : list (string * value)).

Lemma elem_of_dict_set k v items p :
  p ∈ dict_set k v items → p = (k, v) ∨ p ∈ items.
Proof.
  induction items as [|[k' v'] rest IH]; simpl.
  - intros ->%list_elem_of_singleton. by left.
  - case_decide as Hk.
    + intros [-> | Hin]%elem_of_cons; [by left|].
      right. by apply list_elem_of_further.
    + intros [-> | Hin]%elem_of_cons; [right; apply list_elem_of_here|].
      destruct (IH Hin) as [-> | ?]; [by left|].
      right. by apply list_elem_of_further.
Qed.

Lemma dict_set_key k v items x :
  x ∈ (dict_set k v items).*1 → x = k ∨ x ∈ items.*1.
Proof.
  intros ([x' v'] & -> & Hin)%list_elem_of_fmap.
  destruct (elem_of_dict_set _ _ _ _ Hin) as [[= -> ->] | Hp]; [by left|].
  right. apply list_elem_of_fmap. by exists (x', v').
Qed.

Lemma NoDup_dict_set k v items :
  NoDup items.*1 → NoDup (dict_set k v items).*1.
Proof.
  induction items as [|[k' v'] rest IH]; simpl.
  - intros _. apply NoDup_singleton.
  - intros [Hfresh Hrest]%NoDup_cons. case_decide as Hk; simpl.
    + subst. by apply NoDup_cons.
    + apply NoDup_cons. split; [|by apply IH].
      intros [-> | ?]%dict_set_key; done.
Qed.


Lemma elem_of_foldl_dict_set l items p :
  p ∈ foldl (λ acc m, dict_set m.1 m.2 acc) items l → p ∈ items ∨ p ∈ l.
Proof.
  revert items. induction l as [|[k v] l IH]; intros items; simpl.
  - by left.
  - intros [Hin | Hin]%IH.
    + destruct (elem_of_dict_set _ _ _ _ Hin) as [-> | ?]; [|by left].
      right. apply list_elem_of_here.
    + right. by apply list_elem_of_further.
Qed.

(** Every item of the dictionary is a member of the object. *)
Lemma elem_of_py_dict l p : p ∈ py_dict l → p ∈ l.
Proof.
  intros [Hin | ?]%elem_of_foldl_dict_set; [|done].
  by apply not_elem_of_nil in Hin.
Qed.

(** The keys of the dictionary are distinct. *)
Lemma NoDup_py_dict l : NoDup (py_dict l).*1.
Proof.
  unfold py_dict.
  assert (∀ items, NoDup items.*1 →
            NoDup (foldl (λ acc m, dict_set m.1 m.2 acc) items l).*1) as Hgen.
  { induction l as [|[k v] l IH]; intros items Hitems; simpl; [done|].
    by apply IH, NoDup_dict_set. }
  apply Hgen. constructor.
Qed.

End py_dict.

(** ** [load_data] *)

Lemma load_data_missing (file : string) (w : world) :
  disk w !! file = None →
  load_data file w = (Ok tt, World ∅ (disk w)).
Proof.
  intros Hfile. unfold load_data, try_except, open_read. unfold_M.
  by rewrite Hfile.
Qed.

Lemma load_data_blocked (file : string) (w : world) (e : exn) :
  disk w !! file = Some (Blocked e) →
  load_data file w =
    if load_catches e then (Ok tt, World ∅ (disk w)) else (Raise e, w).
Proof.
  intros Hfile. unfold load_data, try_except, open_read. unfold_M.
  rewrite Hfile. by destruct e.
Qed.

Lemma load_data_content (file : string) (w : world) (n : node) (c : content) :
  disk w !! file = Some n → node_content n = Some c →
  load_data file w =
    match c with
    | Doc doc =>
        if json_fits doc then
          match json_decode doc with
          | VDict items =>
              match dict_comp items ∅ with
              | Ok new => (Ok tt, World new (disk w))
              | Raise e =>
                  if load_catches e then (Ok tt, World ∅ (disk w))
                  else (Raise e, w)
              end
          | _ => (Ok tt, World ∅ (disk w))
          end
        else (Ok tt, World ∅ (disk w))
    | Nested => (Raise RecursionError, w)
    | _ => (Ok tt, World ∅ (disk w))
    end.
Proof.
  intros Hfile Hc. unfold load_data, try_except, open_read.
  unfold mbind, M_bind, bind. rewrite Hfile.
  assert (match n with
          | File c | ReadOnly c | Full c => (Ok c, w)
          | Blocked e => (Raise e, w)
          end = (Ok c, w)) as ->.
  { destruct n; simplify_eq/=; done. }
  destruct c as [| | |doc]; try done.
  unfold json_load. destruct (json_fits doc); [|done].
  unfold ret, lift, set_stock, raise.
  destruct (json_decode doc); try done.
  destruct (dict_comp items ∅) as [new|e]; [done|]. by destruct e.
Qed.

(** [int()] raises one of three classes. *)
Lemma py_int_raises (v : value) (e : exn) :
  py_int v = Raise e → e = TypeError ∨ e = ValueError ∨ e = OverflowError.
Proof.
  destruct v as [|b|n|x|s|l|items]; simpl; try (intros [= <-]; auto).
  - destruct x; simpl; intros [= <-]; auto.
  - unfold int_of_str. repeat case_match; intros [= <-]; auto.
Qed.

Lemma dict_comp_raises (items : list (string * value)) (acc : gmap string Z)
    (e : exn) :
  dict_comp items acc = Raise e →
  ∃ k v, (k, v) ∈ items ∧ py_int v = Raise e.
Proof.
  revert acc. induction items as [|[k v] rest IH]; intros acc; simpl; [done|].
  destruct (py_int v) as [n|e'] eqn:Hv.
  - intros (k' & v' & Hin & Hraise)%IH. exists k', v'. split; [|done].
    by apply list_elem_of_further.
  - intros [= ->]. exists k, v. split; [apply list_elem_of_here | done].
Qed.

(** The failures [load_data] recovers from: no file, bytes that do not
    decode, text that is not JSON, an integer literal of more than 4300
    digits, a JSON value that is not an object, and a value whose [int()]
    raises [TypeError] or [ValueError].  Each leaves the empty dictionary
    and returns. *)
Lemma load_data_recovers (file : string) (w : world) :
  disk w !! file = None ∨
  (∃ n c, disk w !! file = Some n ∧ node_content n = Some c ∧
     (c = Undecodable ∨ c = Garbage ∨
      (∃ doc, c = Doc doc ∧
         (json_fits doc = false ∨
          (∀ items, json_decode doc ≠ VDict items) ∨
          (∃ items e, json_decode doc = VDict items ∧
                      dict_comp items ∅ = Raise e ∧ e ≠ OverflowError))))) →
  load_data file w = (Ok tt, World ∅ (disk w)).
Proof.
  intros [Hmissing | (n & c & Hfile & Hc & Hbad)].
  { by apply load_data_missing. }
  rewrite (load_data_content file w n c Hfile Hc).
  destruct Hbad as [-> | [-> | (doc & -> & Hdoc)]]; try done.
  destruct (json_fits doc); [|done].
  destruct Hdoc as [? | [Hv | (items & e & -> & He & Hne)]]; [done | |].
  - destruct (json_decode doc); try done. by destruct (Hv items).
  - rewrite He.
    destruct (dict_comp_raises _ _ _ He) as (k & v & _ & Hraise).
    by destruct (py_int_raises v e Hraise) as [-> | [-> | ->]].
Qed.

(** An infinite [float] among the values: [int()] raises [OverflowError],
    no clause catches it, and the dictionary is left as it was. *)
Lemma load_data_overflow (file : string) (w : world) (n : node)
    (doc : value) (items : list (string * value)) :
  disk w !! file = Some n → node_content n = Some (Doc doc) →
  json_fits doc = true → json_decode doc = VDict items →
  dict_comp items ∅ = Raise OverflowError →
  load_data file w = (Raise OverflowError, w).
Proof.
  intros Hfile Hc Hfits Hdoc Hraise.
  rewrite (load_data_content file w n _ Hfile Hc).
  by rewrite Hfits, Hdoc, Hraise.
Qed.

(** C3 (the code departs from it).  A file holding [{"apple": 1e999}]: the
    value is read as a [float] infinity, [int()] raises [OverflowError],
    [load_data] lets it through to the caller and the dictionary keeps its
    earlier items instead of becoming empty. *)
Theorem load_data_overflow_escapes :
  let files : gmap string node :=
    {["inventory.json" := File (Doc (VDict [("apple", VFloat (FInf false))]))]} in
  load_data "inventory.json" (World {["pear" := 3]} files) =
    (Raise OverflowError, World {["pear" := 3]} files).
Proof. reflexivity. Qed.

(** ** [save_data] *)

Global Instance key_le_total : Total key_le.
Proof. intros p q. unfold key_le. apply (total String.le). Qed.

Global Instance key_le_trans : Transitive key_le.
Proof. intros p q r. unfold key_le. apply (transitivity (R := String.le)). Qed.

(** The [except OSError] clause raises again what it caught, so [save_data]
    does what opening and writing the file does. *)
Lemma save_data_run (file : string) (w : world) :
  save_data file w = open_write file (json_dump (stock_data w)) w.
Proof.
  unfold save_data, try_except, open_write. unfold_M.
  destruct (disk w !! file) as [[c|c|c|e]|]; try done;
    try (destruct (json_dump (stock_data w)) as [v|e]; [done | by destruct e]).
  by destruct e.
Qed.

Section dump.
Implicit Types (stock acc : gmap string Z) (l : list (string * Z)).

(** The items of a dumped dictionary are those of the dictionary. *)
Lemma dump_items stock :
  merge_sort key_le (map_to_list stock) ≡ₚ map_to_list stock.
Proof. apply merge_sort_Permutation. Qed.


(** [json.dump] returns exactly when every quantity has at most 4300
    digits, and then writes the sorted items. *)
Lemma json_dump_ok stock doc :
  json_dump stock = Ok doc →
  doc = VDict (prod_map id VInt <$> merge_sort key_le (map_to_list stock)) ∧
  ∀ k n, stock !! k = Some n → fits_str_digits n = true.
Proof.
  unfold json_dump.
  destruct (forallb _ _) eqn:Hfits; [|done]. intros [= <-]. split; [done|].
  intros k n Hk. rewrite forallb_forall in Hfits.
  apply (Hfits (k, n)). apply list_elem_of_In. rewrite dump_items.
  by apply elem_of_map_to_list.
Qed.






End dump.







(** ** The invariant along [add_item], [remove_item], [load_data], [save_data] *)

Lemma dict_comp_positive (items : list (string * value))
    (acc new : gmap string Z) :
  items_positive items → stock_positive acc →
  dict_comp items acc = Ok new → stock_positive new.
Proof.
  revert acc. induction items as [|[k v] rest IH]; intros acc Hitems Hacc; simpl.
  - by intros [= <-].
  - destruct (py_int v) as [n|e] eqn:Hv; [|done].
    apply IH.
    + intros k' v' n' Hin. apply (Hitems k'). by apply list_elem_of_further.
    + intros name q. rewrite lookup_insert. case_decide; [|apply Hacc].
      intros [= <-]. apply (Hitems k v); [apply list_elem_of_here | done].
Qed.

(** What [save_data] writes for quantities above 0 reads back as values
    above 0. *)
Lemma dump_positive (stock : gmap string Z) (doc : value)
    (items : list (string * value)) :
  stock_positive stock → json_dump stock = Ok doc →
  json_decode doc = VDict items → items_positive items.
Proof.
  intros Hpos Hdump Hdec. destruct (json_dump_ok _ _ Hdump) as [-> _].
  cbn [json_decode] in Hdec. injection Hdec as <-.
  intros k v n Hin%elem_of_py_dict Hint.
  apply list_elem_of_In, in_map_iff in Hin as ([k' x] & [= <- <-] & Hin).
  apply list_elem_of_In, list_elem_of_fmap in Hin as ([k'' q] & [= -> ->] & Hin).
  rewrite dump_items in Hin. apply elem_of_map_to_list in Hin.
  simpl in Hint. injection Hint as <-. by apply Hpos in Hin.
Qed.

Lemma load_data_positive (file : string) (w : world) :
  world_positive w → world_positive (load_data file w).2.
Proof.
  intros [Hstock Hdisk].
  destruct (disk w !! file) as [n|] eqn:Hfile.
  2: { rewrite load_data_missing by done.
       split; [apply stock_positive_empty | done]. }
  destruct (node_content n) as [c|] eqn:Hc.
  2: { destruct n; try done. rewrite (load_data_blocked file w e Hfile).
       destruct (load_catches e); [|done].
       split; [apply stock_positive_empty | done]. }
  rewrite (load_data_content file w n c Hfile Hc).
  destruct c as [| | |doc]; try done;
    try (split; [apply stock_positive_empty | done]).
  destruct (json_fits doc) eqn:Hfits;
    [|split; [apply stock_positive_empty | done]].
  destruct (json_decode doc) eqn:Hdec;
    try (split; [apply stock_positive_empty | done]).
  destruct (dict_comp items ∅) as [new|e] eqn:Hcomp.
  - split; [|done]. simpl.
    eapply dict_comp_positive; [|apply stock_positive_empty|done].
    by eapply Hdisk.
  - destruct (load_catches e); [|done].
    split; [apply stock_positive_empty | done].
Qed.

Lemma save_data_positive (file : string) (w : world) :
  world_positive w → world_positive (save_data file w).2.
Proof.
  intros [Hstock Hdisk]. rewrite save_data_run. unfold open_write.
  assert (∀ c, (∀ doc items, c = Doc doc → json_fits doc = true →
                             json_decode doc = VDict items →
                             items_positive items) →
          world_positive
            (World (stock_data w) (<[file := File c]> (disk w)))) as Hwritten.
  { intros c Hc. split; [done|]. intros f n doc items. simpl.
    rewrite lookup_insert. case_decide; [|apply Hdisk].
    intros [= <-] [= ->]. by apply Hc. }
  destruct (disk w !! file) as [[c|c|c|e]|]; try done.
  - destruct (json_dump (stock_data w)) as [doc|e] eqn:Hdump.
    + apply Hwritten. intros ? items [= <-] _.
      by apply (dump_positive (stock_data w) doc).
    + by apply Hwritten.
  - split; [done|]. intros f n doc items. simpl. rewrite lookup_insert.
    case_decide; [|apply Hdisk]. by intros [= <-].
  - destruct (json_dump (stock_data w)) as [doc|e] eqn:Hdump.
    + apply Hwritten. intros ? items [= <-] _.
      by apply (dump_positive (stock_data w) doc).
    + by apply Hwritten.
Qed.

Lemma do_call_positive (c : call) (w : world) :
  world_positive w → world_positive (do_call c w).2.
Proof.
  destruct c as [m|file|file]; simpl.
  - intros [Hstock Hdisk]. split; [by apply do_mutation_positive|].
    assert (disk (do_mutation m w).2 = disk w) as ->; [|done].
    rewrite do_mutation_world. destruct m as [item qty logs now|item qty].
    + by destruct (add_item_cases item qty logs now w)
        as [-> | (x & _ & _ & _ & ->)].
    + unfold remove_item. destruct item; try done.
      destruct (negb (isinstance_int qty)); [done|].
      destruct (int_val qty <=? 0); [done|]. unfold_M.
      destruct (stock_data w !! s) as [current|]; [|done].
      by destruct (int_val qty >=? current).
  - apply load_data_positive.
  - apply save_data_positive.
Qed.

(** C1, as the code has it.  Started in a world whose quantities are above 0
    and whose JSON files hold only values that [int()] turns into numbers
    above 0, every sequence of [add_item], [remove_item], [load_data] and
    [save_data] calls keeps every stored quantity above 0, and an item is
    absent exactly when its quantity is 0.  [load_data] itself checks no
    sign: what a file holds is stored as it is. *)
Theorem ledger_invariant (cs : list call) (w : world) :
  stock_positive (stock_data w) → disk_positive (disk w) →
  Forall (λ r : outcome unit * world,
            stock_positive (stock_data r.2) ∧ absent_iff_zero r.2)
         (trace do_call cs w).
Proof.
  intros Hstock Hdisk. eapply Forall_impl.
  - apply (trace_invariant do_call world_positive).
    + apply do_call_positive.
    + by split.
  - intros r [Hpos _]. split; [done | by apply stock_positive_absent].
Qed.

Lemma ledger_invariant_witness :
  Forall (λ r : outcome unit * world,
            stock_positive (stock_data r.2) ∧ absent_iff_zero r.2)
         (trace do_call
            [Load "inventory.json";
             Mutate (Add (VStr "apple") (VInt 10) VNone "09:00");
             Mutate (Remove (VStr "apple") (VInt 3));
             Mutate (Remove (VStr "pear") (VInt 9));
             Save "inventory.json"]
            (World ∅
               {["inventory.json" :=
                   File (Doc (VDict [("pear", VFloat (FFinite 5 (-1)))]))]})).
Proof.
  apply ledger_invariant; simpl.
  - intros name q. rewrite lookup_empty. discriminate.
  - intros file n doc items [<- <-]%lookup_singleton_Some [= <-] _ Hdec k v q.
    vm_compute in Hdec. injection Hdec as <-.
    intros [= -> ->]%list_elem_of_singleton [= <-]. vm_compute. reflexivity.
Defined.

(** C1 as stated fails: [load_data] stores what the file holds, here the
    quantity 0, so a stored quantity need not be above 0 and an item with
    quantity 0 need not be absent. *)
Lemma load_data_stores_zero :
  ¬ Forall (λ r : outcome unit * world,
              stock_positive (stock_data r.2) ∧ absent_iff_zero r.2)
           (trace do_call [Load "inventory.json"]
              (World ∅
                 {["inventory.json" :=
                     File (Doc (VDict [("apple", VInt 0)]))]})).
Proof.
  intros [Hpos _]%Forall_inv.
  assert (0 < 0); [|lia].
  apply (Hpos "apple"). reflexivity.
Qed.

(** ** [check_low_items] *)

Lemma check_low_items_run (threshold : value) (w : world) :
  isinstance_int threshold = true → 0 ≤ int_val threshold →
  check_low_items threshold w =
    (Ok (filter (λ p : string * Z, p.2 < int_val threshold)
                (map_to_list (stock_data w))).*1, w).
Proof.
  intros Hint Hle. unfold check_low_items. rewrite Hint. simpl.
  by replace (int_val threshold <? 0) with false by lia.
Qed.

(** C7, as the code has it.  For an [int] threshold that is not negative,
    [check_low_items] returns, without repetition, exactly the items whose
    stored quantity is below the threshold; with threshold 0 the list is
    empty when no stored quantity is negative. *)
Theorem check_low_items_spec (threshold : value) (w : world) :
  isinstance_int threshold = true → 0 ≤ int_val threshold →
  ∃ low,
    check_low_items threshold w = (Ok low, w) ∧
    NoDup low ∧
    (∀ name, name ∈ low ↔
             ∃ q, stock_data w !! name = Some q ∧ q < int_val threshold) ∧
    ((∀ name q, stock_data w !! name = Some q → 0 ≤ q) →
     int_val threshold = 0 → low = []).
Proof.
  intros Hint Hle. eexists. split; [by apply check_low_items_run|].
  set (P := λ p : string * Z, p.2 < int_val threshold).
  assert (∀ name, name ∈ (filter P (map_to_list (stock_data w))).*1 ↔
            ∃ q, stock_data w !! name = Some q ∧ q < int_val threshold)
    as Hmem.
  { intros name. rewrite list_elem_of_fmap. split.
    - intros ([k q] & -> & [Hq Hin]%list_elem_of_filter).
      exists q. split; [by apply elem_of_map_to_list | done].
    - intros (q & Hq & Hlt). exists (name, q). split; [done|].
      apply list_elem_of_filter. split; [done | by apply elem_of_map_to_list]. }
  split; [|split; [done|]].
  - apply (sublist_NoDup _ (map_to_list (stock_data w)).*1).
    + apply NoDup_fst_map_to_list.
    + apply fmap_sublist, sublist_filter.
  - intros Hnonneg Hzero.
    destruct (filter P (map_to_list (stock_data w))).*1 as [|name low] eqn:Hlow;
      [done|].
    destruct (proj1 (Hmem name)) as (q & Hq & Hlt); [apply list_elem_of_here|].
    apply Hnonneg in Hq. lia.
Qed.

Lemma check_low_items_spec_witness :
  ∃ low,
    check_low_items (VInt 5) (World {["a" := 1; "b" := 4; "c" := 10]} ∅) =
      (Ok low, World {["a" := 1; "b" := 4; "c" := 10]} ∅) ∧
    NoDup low ∧
    (∀ name, name ∈ low ↔
             ∃ q, ({["a" := 1; "b" := 4; "c" := 10]} : gmap string Z) !! name
                    = Some q ∧ q < 5) ∧
    ((∀ name q, ({["a" := 1; "b" := 4; "c" := 10]} : gmap string Z) !! name
                  = Some q → 0 ≤ q) →
     5 = 0 → low = []).
Proof.
  assert (0 ≤ int_val (VInt 5)) as Hle by (simpl; lia).
  exact (check_low_items_spec (VInt 5)
           (World {["a" := 1; "b" := 4; "c" := 10]} ∅) eq_refl Hle).
Defined.

(** C7 as stated fails: after loading a file with a negative quantity,
    [check_low_items(0)] lists that item. *)
Lemma check_low_items_zero_nonempty :
  (load_data "inventory.json";; check_low_items (VInt 0))
    (World ∅ {["inventory.json" := File (Doc (VDict [("apple", VInt (-1))]))]})
  = (Ok ["apple"],
     World {["apple" := -1]}
       {["inventory.json" := File (Doc (VDict [("apple", VInt (-1))]))]}).
Proof. reflexivity. Qed.

(** ** Further properties of [add_item], [remove_item] and [get_qty] *)

Section ledger_algebra.
Implicit Types (name other now : string) (item qty logs : value) (w : world).

(** X1. Adding the quantities of a list, all above 0, to one item leaves
    that item with its previous quantity plus their sum; no other item and
    no file changes. *)
Theorem add_item_sum name logs now (qs : list Z) w :
  Forall (λ q, 0 < q) qs →
  let w' := foldl (λ u q, (add_item (VStr name) (VInt q) logs now u).2) w qs in
  get_qty (VStr name) w' =
    (Ok (default 0 (stock_data w !! name) + foldr Z.add 0 qs), w') ∧
  (∀ other, other ≠ name → stock_data w' !! other = stock_data w !! other) ∧
  disk w' = disk w.
Proof.
  intros Hqs. revert w.
  induction Hqs as [|q qs Hq Hqs IH]; intros w; cbv zeta; cbn [foldl foldr].
  - unfold get_qty. unfold_M. by rewrite Z.add_0_r.
  - rewrite add_item_world by done.
    pose proof (IH (World (<[name := default 0 (stock_data w !! name) + q]>
                             (stock_data w)) (disk w))) as Hrest.
    cbv zeta in Hrest. destruct Hrest as (Hget & Hother & Hdisk).
    simpl in *. split; [|split].
    + rewrite Hget. f_equal. f_equal. rewrite lookup_insert_eq. simpl. lia.
    + intros other Hne. rewrite Hother by done. by rewrite lookup_insert_ne.
    + done.
Qed.

Lemma add_item_sum_witness :
  get_qty (VStr "apple")
    (foldl (λ u q, (add_item (VStr "apple") (VInt q) VNone "09:00" u).2)
           (World {["apple" := 2]} ∅) [3; 4; 5]) =
  (Ok (default 0 (({["apple" := 2]} : gmap string Z) !! "apple") +
       foldr Z.add 0 [3; 4; 5]),
   foldl (λ u q, (add_item (VStr "apple") (VInt q) VNone "09:00" u).2)
         (World {["apple" := 2]} ∅) [3; 4; 5]).
Proof.
  assert (Forall (λ q, 0 < q) [3; 4; 5]) as Hqs by (repeat constructor).
  destruct (add_item_sum "apple" VNone "09:00" [3; 4; 5]
              (World {["apple" := 2]} ∅) Hqs) as (Hget & _).
  exact Hget.
Defined.

(** X2. Two [add_item] calls commute on the world: whatever their
    arguments, and whether each returns or raises, either order leaves the
    same quantities and the same files. *)
Theorem add_item_comm item1 qty1 logs1 now1 item2 qty2 logs2 now2 w :
  (add_item item2 qty2 logs2 now2
     (add_item item1 qty1 logs1 now1 w).2).2 =
  (add_item item1 qty1 logs1 now1
     (add_item item2 qty2 logs2 now2 w).2).2.
Proof.
  destruct (add_item_effect item1 qty1 logs1 now1)
    as [Hsame1 | (x & -> & Hi1 & Hp1 & Hstore1)];
    [by rewrite !Hsame1|].
  destruct (add_item_effect item2 qty2 logs2 now2)
    as [Hsame2 | (y & -> & Hi2 & Hp2 & Hstore2)];
    [by rewrite !Hsame2|].
  rewrite !Hstore1, !Hstore2. simpl. f_equal.
  destruct (decide (x = y)) as [->|Hne].
  - rewrite !lookup_insert_eq, !insert_insert_eq. simpl. f_equal. lia.
  - rewrite !lookup_insert_ne by done. by apply insert_insert_ne.
Qed.

(** X3. After an [add_item] whose checks pass, whether it returned or
    raised once the quantity was stored, [remove_item] of the same quantity
    returns and gives back the world as it was before the two calls, when
    the item was absent or stored with a quantity above 0. *)
Theorem add_remove_cancel name qty logs now w :
  isinstance_int qty = true → 0 < int_val qty →
  (∀ current, stock_data w !! name = Some current → 0 < current) →
  remove_item (VStr name) qty (add_item (VStr name) qty logs now w).2 =
    (Ok tt, w).
Proof.
  intros Hint Hpos Hcur.
  rewrite add_item_world by done. rewrite remove_item_run by done. simpl.
  rewrite lookup_insert_eq. destruct w as [stock files]. simpl in *.
  f_equal. f_equal.
  destruct (stock !! name) as [current|] eqn:Hname; simpl.
  - specialize (Hcur current eq_refl).
    replace (int_val qty >=? current + int_val qty) with false by lia.
    rewrite insert_insert_eq. apply insert_id. rewrite Hname. f_equal. lia.
  - replace (int_val qty >=? 0 + int_val qty) with true by lia.
    by apply delete_insert_id.
Qed.

Lemma add_remove_cancel_witness :
  remove_item (VStr "apple") (VInt 4)
    (add_item (VStr "apple") (VInt 4) (VInt 0) "09:00"
       (World {["apple" := 1]} ∅)).2 = (Ok tt, World {["apple" := 1]} ∅).
Proof.
  apply (add_remove_cancel "apple" (VInt 4) (VInt 0) "09:00"
           (World {["apple" := 1]} ∅)); [reflexivity | reflexivity |].
  simpl. intros current [_ <-]%lookup_singleton_Some. reflexivity.
Defined.

(** X4. After [remove_item] of a stored item, [get_qty] returns the
    difference floored at 0, and the item is gone exactly when the quantity
    removed reaches the quantity stored. *)
Theorem remove_item_floor name qty (current : Z) w :
  isinstance_int qty = true → 0 < int_val qty →
  stock_data w !! name = Some current →
  ∃ w', (remove_item (VStr name) qty;; get_qty (VStr name)) w =
          (Ok (Z.max 0 (current - int_val qty)), w') ∧
        (stock_data w' !! name = None ↔ current ≤ int_val qty).
Proof.
  intros Hint Hpos Hname. unfold mbind, M_bind, bind.
  rewrite remove_item_run by done. rewrite Hname, get_qty_run. simpl.
  eexists. split; [|split].
  - f_equal. f_equal. destruct (int_val qty >=? current) eqn:Hge.
    + rewrite lookup_delete_eq. simpl. lia.
    + rewrite lookup_insert_eq. simpl. lia.
  - simpl. destruct (int_val qty >=? current) eqn:Hge; [lia|].
    by rewrite lookup_insert_eq.
  - simpl. intros Hle. replace (int_val qty >=? current) with true by lia.
    apply lookup_delete_eq.
Qed.

Lemma remove_item_floor_witness :
  ∃ w', (remove_item (VStr "apple") (VInt 9);; get_qty (VStr "apple"))
          (World {["apple" := 5]} ∅) = (Ok (Z.max 0 (5 - 9)), w') ∧
        (stock_data w' !! "apple" = None ↔ 5 ≤ 9).
Proof.
  exact (remove_item_floor "apple" (VInt 9) 5 (World {["apple" := 5]} ∅)
           eq_refl eq_refl eq_refl).
Defined.

(** X5. [add_item] and [remove_item] touch one key: whatever the arguments
    and the outcome, every other item keeps its entry and no file
    changes. *)
Theorem mutation_frame (m : mutation) other w :
  match m with Add item _ _ _ | Remove item _ => item ≠ VStr other end →
  stock_data (do_mutation m w).2 !! other = stock_data w !! other ∧
  disk (do_mutation m w).2 = disk w.
Proof.
  rewrite do_mutation_world.
  destruct m as [item qty logs now|item qty]; simpl; intros Hne.
  - destruct (add_item_cases item qty logs now w)
      as [-> | (x & -> & _ & _ & ->)]; [done|]. simpl.
    split; [|done]. apply lookup_insert_ne. congruence.
  - unfold remove_item. destruct item; try done.
    destruct (negb (isinstance_int qty)); [done|].
    destruct (int_val qty <=? 0); [done|]. unfold_M.
    destruct (stock_data w !! s) as [current|]; [|done].
    destruct (int_val qty >=? current); simpl; (split; [|done]).
    + apply lookup_delete_ne. congruence.
    + apply lookup_insert_ne. congruence.
Qed.

Lemma mutation_frame_witness :
  stock_data (do_mutation (Remove (VStr "apple") (VInt 9))
                (World {["apple" := 5; "pear" := 2]} ∅)).2 !! "pear" =
    stock_data (World {["apple" := 5; "pear" := 2]} ∅) !! "pear" ∧
  disk (do_mutation (Remove (VStr "apple") (VInt 9))
          (World {["apple" := 5; "pear" := 2]} ∅)).2 =
    disk (World {["apple" := 5; "pear" := 2]} ∅).
Proof.
  apply (mutation_frame (Remove (VStr "apple") (VInt 9)) "pear").
  discriminate.
Defined.

(** X6. [add_item] never lowers a quantity, whatever its arguments; and
    when no stored quantity is negative, [remove_item] never raises one. *)
Theorem mutation_monotone item qty logs now name w :
  default 0 (stock_data w !! name) ≤
    default 0 (stock_data (add_item item qty logs now w).2 !! name) ∧
  ((∀ k q, stock_data w !! k = Some q → 0 ≤ q) →
   default 0 (stock_data (remove_item item qty w).2 !! name) ≤
     default 0 (stock_data w !! name)).
Proof.
  split.
  - destruct (add_item_cases item qty logs now w)
      as [-> | (x & -> & _ & Hpos & ->)]; [done|]. simpl.
    rewrite lookup_insert. case_decide as Heq; [|done]. subst. simpl. lia.
  - intros Hnonneg. unfold remove_item. destruct item; try done.
    destruct (negb (isinstance_int qty)); [done|].
    destruct (int_val qty <=? 0) eqn:Hle; [done|]. unfold_M.
    destruct (stock_data w !! s) as [current|] eqn:Hcur; [|done].
    destruct (int_val qty >=? current) eqn:Hge; simpl.
    + rewrite lookup_delete. case_decide as Heq; [|done]. subst.
      rewrite Hcur. simpl. by eapply Hnonneg.
    + rewrite lookup_insert. case_decide as Heq; [|done]. subst.
      rewrite Hcur. simpl. lia.
Qed.

Lemma mutation_monotone_witness :
  default 0 (stock_data (remove_item (VStr "apple") (VInt 9)
                           (World {["apple" := 5]} ∅)).2 !! "apple") ≤
  default 0 (stock_data (World {["apple" := 5]} ∅) !! "apple").
Proof.
  destruct (mutation_monotone (VStr "apple") (VInt 9) VNone "" "apple"
              (World {["apple" := 5]} ∅)) as [_ Hremove].
  apply Hremove. simpl.
  intros k q [<- <-]%lookup_singleton_Some. lia.
Defined.
End ledger_algebra.

(** ** Further properties of [get_qty] and [check_low_items] *)

(** X7. [get_qty] and [check_low_items] only read: whatever the argument
    and the outcome, the world is as before.  [get_qty] raises exactly when
    its argument is not a [str], and then [TypeError]; [check_low_items]
    raises [TypeError] exactly when the threshold is not an [int] and
    [ValueError] exactly when it is an [int] below 0. *)
Theorem readers_keep_world (item threshold : value) (w : world) :
  (get_qty item w).2 = w ∧
  (check_low_items threshold w).2 = w ∧
  (∀ e, (get_qty item w).1 = Raise e ↔
        isinstance_str item = false ∧ e = TypeError) ∧
  ((check_low_items threshold w).1 = Raise TypeError ↔
     isinstance_int threshold = false) ∧
  ((check_low_items threshold w).1 = Raise ValueError ↔
     isinstance_int threshold = true ∧ int_val threshold < 0).
Proof.
  split; [by destruct item|].
  assert (∀ e, (get_qty item w).1 = Raise e ↔
               isinstance_str item = false ∧ e = TypeError) as Hget.
  { intros e. destruct item; simpl;
      (split; [intros [= <-] | intros [[=] ->]]; done). }
  unfold check_low_items.
  destruct (isinstance_int threshold) eqn:Hint; simpl.
  - destruct (int_val threshold <? 0) eqn:Hneg; simpl;
      (split; [done|]); (split; [exact Hget|]); split; split; try done.
    + intros _. split; [done | lia].
    + intros [_ ?]. lia.
  - (split; [done|]); (split; [exact Hget|]); split; split; try done.
    by intros [? _].
Qed.

(** X8. Raising the threshold only adds items: every item listed for a
    threshold is listed for each larger one. *)
Theorem check_low_items_mono (t1 t2 : value) (w : world) :
  isinstance_int t1 = true → isinstance_int t2 = true →
  0 ≤ int_val t1 → int_val t1 ≤ int_val t2 →
  ∃ low1 low2,
    check_low_items t1 w = (Ok low1, w) ∧
    check_low_items t2 w = (Ok low2, w) ∧
    low1 ⊆ low2.
Proof.
  intros Hi1 Hi2 Hle1 Hle2.
  rewrite !check_low_items_run by (done || lia).
  eexists _, _. split; [done|]. split; [done|].
  intros name ([k q] & -> & [Hq Hin]%list_elem_of_filter)%list_elem_of_fmap.
  apply list_elem_of_fmap. exists (k, q). split; [done|].
  apply list_elem_of_filter. split; [simpl in *; lia | done].
Qed.

Lemma check_low_items_mono_witness :
  ∃ low1 low2,
    check_low_items (VBool true) (World {["a" := 0; "b" := 4]} ∅) =
      (Ok low1, World {["a" := 0; "b" := 4]} ∅) ∧
    check_low_items (VInt 5) (World {["a" := 0; "b" := 4]} ∅) =
      (Ok low2, World {["a" := 0; "b" := 4]} ∅) ∧
    low1 ⊆ low2.
Proof.
  assert (0 ≤ int_val (VBool true)) as Hle1 by (simpl; lia).
  assert (int_val (VBool true) ≤ int_val (VInt 5)) as Hle2 by (simpl; lia).
  exact (check_low_items_mono (VBool true) (VInt 5)
           (World {["a" := 0; "b" := 4]} ∅) eq_refl eq_refl Hle1 Hle2).
Defined.

(** ** Further properties of [load_data] *)

Lemma load_data_disk (file : string) (w : world) :
  disk (load_data file w).2 = disk w.
Proof.
  destruct (disk w !! file) as [n|] eqn:Hfile.
  2: { by rewrite load_data_missing. }
  destruct (node_content n) as [c|] eqn:Hc.
  2: { destruct n; try done. rewrite (load_data_blocked file w e Hfile).
       by destruct (load_catches e). }
  rewrite (load_data_content file w n c Hfile Hc).
  destruct c as [| | |doc]; try done.
  destruct (json_fits doc); [|done]. destruct (json_decode doc); try done.
  destruct (dict_comp items ∅) as [new|e]; [done|].
  by destruct (load_catches e).
Qed.

(** What the comprehension builds from items with distinct keys. *)
Lemma dict_comp_lookup (items : list (string * value))
    (acc new : gmap string Z) (k : string) (z : Z) :
  NoDup items.*1 → dict_comp items acc = Ok new →
  new !! k = Some z ↔
    (∃ v, (k, v) ∈ items ∧ py_int v = Ok z) ∨
    ((k ∉ items.*1) ∧ acc !! k = Some z).
Proof.
  revert acc. induction items as [|[k' v'] rest IH]; intros acc Hnodup; simpl.
  - intros [= <-]. split; [intros ?; right; split; [|done]|].
    + apply not_elem_of_nil.
    + intros [(v & Hin & _) | [_ ?]]; [|done]. by apply not_elem_of_nil in Hin.
  - apply NoDup_cons in Hnodup as [Hfresh Hnodup].
    destruct (py_int v') as [n|e] eqn:Hv'; [|done].
    intros Hcomp. rewrite (IH _ Hnodup Hcomp). split.
    + intros [(v & Hin & Hv) | [Hk Hacc]].
      * left. exists v. split; [by apply list_elem_of_further | done].
      * rewrite lookup_insert in Hacc. case_decide as Heq.
        -- simplify_eq. left. exists v'. split; [apply list_elem_of_here|done].
        -- right. split; [|done]. rewrite not_elem_of_cons. split; [|done].
           simpl. congruence.
    + intros [(v & Hin & Hv) | [Hk Hacc]].
      * apply elem_of_cons in Hin as [[= -> ->] | Hin].
        -- right. split; [done|]. rewrite lookup_insert_eq. congruence.
        -- left. by exists v.
      * apply not_elem_of_cons in Hk as [Hne Hk]. simpl in Hne.
        right. split; [done|]. by rewrite lookup_insert_ne.
Qed.

Lemma dict_comp_total (items : list (string * value)) (acc : gmap string Z) :
  (∀ k v, (k, v) ∈ items → ∃ z, py_int v = Ok z) →
  ∃ new, dict_comp items acc = Ok new.
Proof.
  revert acc. induction items as [|[k v] rest IH]; intros acc Hall; simpl.
  - by eexists.
  - destruct (Hall k v) as [z ->]; [apply list_elem_of_here|].
    apply IH. intros k' v' Hin. apply (Hall k'). by apply list_elem_of_further.
Qed.

(** The dictionary [json.load] returns for an object has distinct keys. *)
Lemma json_decode_keys (doc : value) (items : list (string * value)) :
  json_decode doc = VDict items → NoDup items.*1.
Proof.
  destruct doc; try done. cbn [json_decode]. intros [= <-].
  apply NoDup_py_dict.
Qed.

(** X9. When the file holds a JSON object with no integer literal of more
    than 4300 digits, and [int()] accepts every value of the dictionary
    [json.load] returns for it, [load_data] returns, leaves the files alone
    and makes the dictionary exactly that one with each value passed
    through [int()]; nothing of the earlier dictionary remains. *)
Theorem load_data_loads (file : string) (w : world) (n : node)
    (doc : value) (items : list (string * value)) :
  disk w !! file = Some n → node_content n = Some (Doc doc) →
  json_fits doc = true → json_decode doc = VDict items →
  (∀ k v, (k, v) ∈ items → ∃ z, py_int v = Ok z) →
  ∃ new,
    load_data file w = (Ok tt, World new (disk w)) ∧
    ∀ k z, new !! k = Some z ↔ ∃ v, (k, v) ∈ items ∧ py_int v = Ok z.
Proof.
  intros Hfile Hc Hfits Hdec Hall.
  destruct (dict_comp_total items ∅ Hall) as [new Hnew].
  exists new. rewrite (load_data_content file w n _ Hfile Hc).
  rewrite Hfits, Hdec, Hnew.
  split; [done|]. intros k z.
  rewrite (dict_comp_lookup items ∅ new k z (json_decode_keys _ _ Hdec) Hnew).
  rewrite lookup_empty. split; [|by left].
  by intros [Hin | [_ [=]]].
Qed.

Lemma load_data_loads_witness :
  ∃ new,
    load_data "inventory.json"
      (World {["pear" := 3]}
         {["inventory.json" :=
             ReadOnly (Doc (VDict [("apple", VNone);
                                   ("kiwi", VBool true);
                                   ("apple", VStr " 1_0 ")]))]}) =
      (Ok tt,
       World new
         (disk (World {["pear" := 3]}
            {["inventory.json" :=
                ReadOnly (Doc (VDict [("apple", VNone);
                                      ("kiwi", VBool true);
                                      ("apple", VStr " 1_0 ")]))]}))) ∧
    ∀ k z, new !! k = Some z ↔
           ∃ v, (k, v) ∈ [("apple", VStr " 1_0 "); ("kiwi", VBool true)] ∧
                py_int v = Ok z.
Proof.
  apply (load_data_loads "inventory.json" _
           (ReadOnly (Doc (VDict [("apple", VNone);
                                  ("kiwi", VBool true);
                                  ("apple", VStr " 1_0 ")])))
           (VDict [("apple", VNone); ("kiwi", VBool true);
                   ("apple", VStr " 1_0 ")])).
  - reflexivity.
  - reflexivity.
  - reflexivity.
  - reflexivity.
  - intros k v Hin. repeat (apply elem_of_cons in Hin as [[= -> ->]|Hin]).
    + by eexists.
    + by eexists.
    + by apply not_elem_of_nil in Hin.
Defined.

(** What [load_data] does is decided by the files: either it returns with a
    dictionary read off the file, or it raises an exception its clauses do
    not catch and keeps the dictionary. *)
Lemma load_data_cases (file : string) (files : gmap string node) :
  (∃ new, ∀ stock,
     load_data file (World stock files) = (Ok tt, World new files)) ∨
  (∃ e, (∀ stock,
           load_data file (World stock files) = (Raise e, World stock files)) ∧
        load_catches e = false).
Proof.
  destruct (files !! file) as [n|] eqn:Hfile.
  2: { left. exists ∅. intros stock. by rewrite load_data_missing. }
  destruct (node_content n) as [c|] eqn:Hc.
  - assert (∀ stock, disk (World stock files) !! file = Some n) as Hw by done.
    destruct c as [| | |doc].
    1, 2: left; exists ∅; intros stock;
          by rewrite (load_data_content file _ n _ (Hw stock) Hc).
    { right. exists RecursionError. split; [|done]. intros stock.
      by rewrite (load_data_content file _ n _ (Hw stock) Hc). }
    destruct (json_fits doc) eqn:Hfits.
    2: { left; exists ∅; intros stock.
         by rewrite (load_data_content file _ n _ (Hw stock) Hc), Hfits. }
    destruct (json_decode doc) eqn:Hdec.
    1-6: left; exists ∅; intros stock;
         by rewrite (load_data_content file _ n _ (Hw stock) Hc), Hfits, Hdec.
    destruct (dict_comp items ∅) as [new|e] eqn:Hcomp.
    + left. exists new. intros stock.
      by rewrite (load_data_content file _ n _ (Hw stock) Hc),
                 Hfits, Hdec, Hcomp.
    + destruct (load_catches e) eqn:Hcatch.
      * left. exists ∅. intros stock.
        by rewrite (load_data_content file _ n _ (Hw stock) Hc),
                   Hfits, Hdec, Hcomp, Hcatch.
      * right. exists e. split; [|done]. intros stock.
        by rewrite (load_data_content file _ n _ (Hw stock) Hc),
                   Hfits, Hdec, Hcomp, Hcatch.
  - destruct n as [c|c|c|e]; try done.
    destruct (load_catches e) eqn:Hcatch.
    + left. exists ∅. intros stock.
      rewrite (load_data_blocked file (World stock files) e Hfile).
      by rewrite Hcatch.
    + right. exists e. split; [|done]. intros stock.
      rewrite (load_data_blocked file (World stock files) e Hfile).
      by rewrite Hcatch.
Qed.

(** X10. A [load_data] that returns replaces the dictionary wholesale: the
    dictionary it leaves is the same whatever the dictionary held before,
    and the files are untouched. *)
Theorem load_data_replaces (file : string) (files : gmap string node)
    (before other : gmap string Z) (w' : world) :
  load_data file (World before files) = (Ok tt, w') →
  disk w' = files ∧
  load_data file (World other files) = (Ok tt, w').
Proof.
  intros Hload.
  destruct (load_data_cases file files) as [[new Hnew] | (e & He & _)].
  - rewrite Hnew in Hload. injection Hload as <-. by rewrite Hnew.
  - by rewrite He in Hload.
Qed.

Lemma load_data_replaces_witness :
  load_data "inventory.json"
    (World {["pear" := 3]} {["inventory.json" := File Garbage]}) =
  (Ok tt, World ∅ {["inventory.json" := File Garbage]}).
Proof.
  assert (load_data "inventory.json"
            (World ∅ {["inventory.json" := File Garbage]}) =
          (Ok tt, World ∅ {["inventory.json" := File Garbage]}))
    as Hfirst by reflexivity.
  destruct (load_data_replaces "inventory.json"
              {["inventory.json" := File Garbage]} ∅ {["pear" := 3]}
              (World ∅ {["inventory.json" := File Garbage]}) Hfirst)
    as [_ Hload].
  exact Hload.
Defined.

(** X11. When [load_data] raises, the world is exactly as before, and the
    exception is one that neither [except] clause catches: never a
    [FileNotFoundError], a [ValueError] (a JSON or a decoding error
    included) or a [TypeError]. *)
Theorem load_data_raise_unchanged (file : string) (w w' : world) (e : exn) :
  load_data file w = (Raise e, w') →
  w' = w ∧ load_catches e = false.
Proof.
  destruct w as [stock files]. intros Hload.
  destruct (load_data_cases file files) as [[new Hnew] | (e' & He' & Hwhich)].
  - by rewrite Hnew in Hload.
  - rewrite He' in Hload. by injection Hload as <- <-.
Qed.

Lemma load_data_raise_unchanged_witness :
  (load_data "deep.json" (World {["pear" := 3]} {["deep.json" := File Nested]})).2
    = World {["pear" := 3]} {["deep.json" := File Nested]} ∧
  load_catches RecursionError = false.
Proof.
  apply (load_data_raise_unchanged "deep.json"
           (World {["pear" := 3]} {["deep.json" := File Nested]})).
  reflexivity.
Defined.

(** X12. Loading twice is loading once. *)
Theorem load_data_idempotent (file : string) (w : world) :
  (load_data file;; load_data file) w = load_data file w.
Proof.
  destruct w as [stock files]. unfold mbind, M_bind, bind.
  destruct (load_data_cases file files) as [[new Hnew] | (e & He & _)].
  - by rewrite !Hnew.
  - by rewrite He.
Qed.

(** ** Further properties of [save_data] *)

(** X13. [save_data] never changes the dictionary and never touches a file
    other than the one it is given, whether it returns or raises. *)
Theorem save_data_frame (file : string) (w : world) :
  stock_data (save_data file w).2 = stock_data w ∧
  ∀ other, other ≠ file →
    disk (save_data file w).2 !! other = disk w !! other.
Proof.
  rewrite save_data_run. unfold open_write.
  destruct (disk w !! file) as [[c|c|c|e]|];
    try destruct (json_dump (stock_data w)); simpl; (split; [done|]);
    intros other Hne; try done; by rewrite lookup_insert_ne.
Qed.

Lemma save_data_frame_witness :
  disk (save_data "inventory.json"
          (World {["pear" := 3]} {["notes.txt" := File Garbage]})).2
    !! "notes.txt" =
  disk (World {["pear" := 3]} {["notes.txt" := File Garbage]}) !! "notes.txt".
Proof.
  destruct (save_data_frame "inventory.json"
              (World {["pear" := 3]} {["notes.txt" := File Garbage]}))
    as [_ Hother].
  apply Hother. discriminate.
Defined.

(** X14. Saving twice is saving once. *)
Theorem save_data_idempotent (file : string) (w : world) :
  (save_data file;; save_data file) w = save_data file w.
Proof.
  unfold mbind, M_bind, bind. rewrite !save_data_run.
  unfold open_write.
  destruct (disk w !! file) as [[c|c|c|e]|] eqn:Hfile; try done;
    destruct (json_dump (stock_data w)) as [doc|e] eqn:Hdump; try done;
    rewrite save_data_run; unfold open_write; simpl;
    by rewrite Hdump, lookup_insert_eq, insert_insert_eq.
Qed.

(** ** [print_data] *)

Lemma StronglySorted_filter {A} (R : relation A) (P : A → Prop)
    `{∀ x, Decision (P x)} (l : list A) :
  StronglySorted R l → StronglySorted R (filter P l).
Proof.
  induction 1 as [|x l Hsorted IH Hall]; [constructor|].
  rewrite filter_cons. case_decide; [|done].
  constructor; [done|]. apply Forall_forall.
  intros y [_ Hy]%list_elem_of_filter.
  rewrite Forall_forall in Hall. by apply Hall.
Qed.

Lemma filter_all {A} (P : A → Prop) `{∀ x, Decision (P x)} (l : list A) :
  Forall P l → filter P l = l.
Proof.
  induction 1 as [|x l Hx Hall IH]; [done|].
  rewrite filter_cons_True by done. by rewrite IH.
Qed.

(** X15. [print_data] leaves the world alone and emits the header followed,
    for an empty dictionary, by the one placeholder line and otherwise by
    one line per item whose quantity has at most 4300 digits, each such
    item once, in ascending order of name; when every quantity has at most
    4300 digits that is one line per item. *)
Theorem print_data_report (w : world) :
  ∃ lines,
    print_data w = (Ok ("Inventory Report:" :: lines), w) ∧
    (stock_data w = ∅ → lines = ["  (no items in inventory)"]) ∧
    (stock_data w ≠ ∅ →
       ∃ l, lines = report_line <$> l ∧
            StronglySorted String.le l.*1 ∧
            NoDup l.*1 ∧
            ∀ k q, (k, q) ∈ l ↔
                   stock_data w !! k = Some q ∧ fits_str_digits q = true) ∧
    ((∀ k q, stock_data w !! k = Some q → fits_str_digits q = true) →
     length lines = Nat.max 1 (size (stock_data w))).
Proof.
  unfold print_data. unfold_M.
  destruct (bool_decide_reflect (stock_data w = ∅)) as [Hempty | Hitems].
  - eexists. split; [done|]. split; [done|]. split; [done|].
    by rewrite Hempty, map_size_empty.
  - set (sorted := merge_sort key_le (map_to_list (stock_data w))).
    set (P := λ p : string * Z, fits_str_digits p.2 = true).
    eexists. split; [done|]. split; [done|]. split.
    + intros _. exists (filter P sorted).
      split; [done|]. split; [|split].
      * apply (StronglySorted_fmap fst key_le); [done|].
        apply StronglySorted_filter, (StronglySorted_merge_sort key_le).
      * apply (sublist_NoDup _ sorted.*1).
        -- unfold sorted. rewrite dump_items. apply NoDup_fst_map_to_list.
        -- apply fmap_sublist, sublist_filter.
      * intros k q. rewrite list_elem_of_filter. unfold sorted.
        rewrite dump_items, elem_of_map_to_list. unfold P. simpl.
        split; intros [? ?]; done.
    + intros Hfits. rewrite length_fmap.
      assert (filter P sorted = sorted) as ->.
      { apply filter_all. apply Forall_forall. intros [k q] Hin.
        unfold sorted in Hin. rewrite dump_items in Hin.
        apply elem_of_map_to_list in Hin. by apply (Hfits k). }
      unfold sorted. rewrite dump_items, length_map_to_list.
      apply map_size_non_empty_iff in Hitems. lia.
Qed.

Lemma print_data_report_witness :
  ∃ lines,
    print_data (World {["b" := 12; "a" := -3]} ∅) =
      (Ok ("Inventory Report:" :: lines), World {["b" := 12; "a" := -3]} ∅) ∧
    ∃ l, lines = report_line <$> l ∧ StronglySorted String.le l.*1.
Proof.
  destruct (print_data_report (World {["b" := 12; "a" := -3]} ∅))
    as (lines & Hrun & _ & Hitems & _).
  exists lines. split; [exact Hrun|].
  destruct Hitems as (l & Hlines & Hsorted & _).
  - simpl. intros Hempty.
    apply (f_equal (λ m : gmap string Z, m !! "a")) in Hempty.
    discriminate Hempty.
  - exists l. split; [exact Hlines | exact Hsorted].
Defined.

(** ** [main] *)

Lemma main_load_raise (now : string) (w w' : world) (e : exn) :
  load_data "inventory.json" w = (Raise e, w') → main now w = (Raise e, w').
Proof. unfold main, mbind, M_bind, bind. by intros ->. Qed.

(** Once [load_data] has returned, [main] is [save_data] on the dictionary
    its calls leave. *)
Lemma main_run (now : string) (w w1 : world) :
  load_data "inventory.json" w = (Ok tt, w1) →
  ∃ stock,
    main now w = save_data "inventory.json" (World stock (disk w1)) ∧
    stock !! "apple" =
      (let a := default 0 (stock_data w1 !! "apple") + 10 in
       if 3 >=? a then None else Some (a - 3)) ∧
    stock !! "orange" =
      match stock_data w1 !! "orange" with
      | Some c => if 1 >=? c then None else Some (c - 1)
      | None => None
      end ∧
    ∀ k, k ≠ "apple" → k ≠ "orange" → stock !! k = stock_data w1 !! k.
Proof.
  intros Hload. destruct w1 as [s1 files].
  set (a := default 0 (s1 !! "apple") + 10).
  set (s2 := <["apple" := a]> s1).
  set (s3 := if 3 >=? a then delete "apple" s2 else <["apple" := a - 3]> s2).
  set (s4 := match s3 !! "orange" with
             | Some c => if 1 >=? c then delete "orange" s3
                         else <["orange" := c - 1]> s3
             | None => s3
             end).
  assert (s3 !! "orange" = s1 !! "orange") as Horange.
  { unfold s3, s2. destruct (3 >=? a).
    - by rewrite lookup_delete_ne, lookup_insert_ne.
    - by rewrite !lookup_insert_ne. }
  exists s4. split; [|split; [|split]].
  - cbn [disk].
    unfold main. rewrite (bind_ok _ _ _ _ _ Hload). unfold try_finally.
    assert (∀ B (k : unit → M B) u,
              (try_except
                 (add_item (VStr "banana") (VInt (-2)) VNone now;; mret tt)
                 [([ValueError], λ _, mret tt)] ≫= k) u = k tt u)
      as Hbanana by reflexivity.
    assert (∀ B (k : unit → M B) u,
              (try_except
                 (add_item (VInt 123) (VInt 10) VNone now;; mret tt)
                 [([TypeError], λ _, mret tt)] ≫= k) u = k tt u)
      as Hnumber by reflexivity.
    assert (fits_str_digits 10 = true) as Hten by reflexivity.
    rewrite (bind_ok _ _ _ (World s2 files)
               (VList [VStr (now +:+ ": Added " +:+ pretty 10 +:+ " of "
                             +:+ "apple")])).
    2: { rewrite add_item_run by done.
         unfold format_qty, str_int. cbn [int_val]. by rewrite Hten. }
    rewrite Hbanana, Hnumber.
    rewrite (bind_ok _ _ _ (World s3 files) tt).
    2: { rewrite remove_item_run by done. simpl. unfold s2 at 1.
         rewrite lookup_insert_eq. reflexivity. }
    rewrite (bind_ok _ _ _ (World s4 files) tt).
    2: { unfold try_except. rewrite remove_item_run by done. simpl.
         unfold s4. destruct (s3 !! "orange"); reflexivity. }
    rewrite (bind_ok _ _ _ (World s4 files) _ (get_qty_run "apple" _)).
    rewrite (bind_ok _ _ _ (World s4 files) _
               (check_low_items_run (VInt 5) _ eq_refl ltac:(simpl; lia))).
    unfold mbind, M_bind, bind, mret, M_ret, ret.
    destruct (save_data "inventory.json" (World s4 files)) as [[[]|e] w2];
      [|reflexivity].
    unfold print_data, get_stock, mbind, M_bind, bind, mret, M_ret, ret.
    destruct (bool_decide (stock_data w2 = ∅)); reflexivity.
  - unfold s4. rewrite Horange. simpl.
    assert (s3 !! "apple" = if 3 >=? a then None else Some (a - 3)) as Happle.
    { unfold s3. destruct (3 >=? a).
      - apply lookup_delete_eq.
      - apply lookup_insert_eq. }
    destruct (s1 !! "orange") as [c|]; [|done].
    destruct (1 >=? c).
    + by rewrite lookup_delete_ne.
    + by rewrite lookup_insert_ne.
  - unfold s4. rewrite Horange. simpl.
    destruct (s1 !! "orange") as [c|]; [|done].
    destruct (1 >=? c).
    + apply lookup_delete_eq.
    + apply lookup_insert_eq.
  - intros k Hk1 Hk2. simpl.
    assert (s3 !! k = s1 !! k) as Hs3.
    { unfold s3, s2. destruct (3 >=? a).
      - by rewrite lookup_delete_ne, lookup_insert_ne.
      - by rewrite !lookup_insert_ne. }
    unfold s4. destruct (s3 !! "orange") as [c|]; [|done].
    destruct (1 >=? c).
    + by rewrite lookup_delete_ne.
    + by rewrite lookup_insert_ne.
Qed.

(** X16. The calls [main] makes with bad arguments never escape it: when
    [main] raises, the exception is the one [load_data] raised at the start
    or the one [save_data] raised at the end. *)
Theorem main_raises_only_io (now : string) (w w' : world) (e : exn) :
  main now w = (Raise e, w') →
  load_data "inventory.json" w = (Raise e, w') ∨
  ∃ u, disk u = disk w ∧ save_data "inventory.json" u = (Raise e, w').
Proof.
  intros Hmain.
  destruct (load_data "inventory.json" w) as [[[]|e1] w1] eqn:Hload.
  - right. destruct (main_run now w w1 Hload) as (stock & Hrun & _).
    exists (World stock (disk w1)). split; [|by rewrite <-Hrun].
    simpl. by rewrite <-(load_data_disk "inventory.json" w), Hload.
  - left. by rewrite (main_load_raise now w w1 e1 Hload) in Hmain.
Qed.

Lemma main_raises_only_io_witness :
  load_data "inventory.json"
    (World ∅ {["inventory.json" := ReadOnly Garbage]}) =
    (Raise PermissionError,
     World {["apple" := 7]} {["inventory.json" := ReadOnly Garbage]}) ∨
  ∃ u, disk u = disk (World ∅ {["inventory.json" := ReadOnly Garbage]}) ∧
       save_data "inventory.json" u =
         (Raise PermissionError,
          World {["apple" := 7]} {["inventory.json" := ReadOnly Garbage]}).
Proof.
  apply (main_raises_only_io "09:00"
           (World ∅ {["inventory.json" := ReadOnly Garbage]})).
  reflexivity.
Defined.


